(** * The EM fit of a two-component Poisson mixture (assignment-04/em.ipynb)

    A shallow embedding of [initialize_parameters] and [em_algorithm] and
    the properties of the fitting loop.

    Numbers.  The notebook computes with numpy float64 values.  They are
    embedded as real numbers: [np.exp] is [exp], [np.log] is [ln], [abs] is
    [Rabs], [**] with a count as exponent is [pow], [scipy.special.factorial]
    of a count is [INR (fact x)].  Rounding, overflow and the special values
    nan and inf are outside this embedding; where numpy yields nan or inf (a
    quotient with denominator zero, the logarithm of zero) the real-number
    operations are still total.  No proof below uses a fact about the inverse
    of zero or the logarithm of a non-positive number, and the concrete runs
    on non-empty samples only pass through states where every denominator is
    positive.

    Arrays.  A one-dimensional [np.ndarray] is a list; the sample holds
    counts, so it is a [list nat].

    Binary64.  One counterexample needs the rounding the reals leave out:
    module [Binary64] computes the E-step at a single point with primitive
    binary64 numbers. *)

From Stdlib Require Import String DecimalString DecimalNat.
From Stdlib Require Import Reals Lra Lia List Arith ZArith Permutation.
From Corelib Require Import PrimFloat.
Import ListNotations.

Open Scope R_scope.

(** ** numpy array operations used by the notebook *)

Module Np.

(** [np.sum a] *)
Definition sum (a : list R) : R := fold_right Rplus 0 a.

(** [np.mean a]: the sum divided by the number of elements *)
Definition mean (a : list R) : R := sum a / INR (length a).

(** Element-wise binary operation on two arrays of the same shape *)
Fixpoint zip_with (f : R -> R -> R) (a b : list R) : list R :=
  match a, b with
  | x :: a', y :: b' => f x y :: zip_with f a' b'
  | _, _ => []
  end.

(** [np.log a] *)
Definition log (a : list R) : list R := map ln a.

End Np.

(** ** Python list indexing *)

Inductive exn : Set := IndexError.

(** [l[i]] for a Python list and a Python integer: indices from [-len l] to
    [len l - 1] are valid, negative ones count from the end, anything else
    raises IndexError. *)
Definition getitem (l : list R) (i : Z) : exn + R :=
  let len := Z.of_nat (length l) in
  let j := if (i <? 0)%Z then (len + i)%Z else i in
  if ((0 <=? j)%Z && (j <? len)%Z)%bool then
    match nth_error l (Z.to_nat j) with
    | Some v => inr v
    | None => inl IndexError
    end
  else inl IndexError.

(** ** Parameters of the mixture *)

(** The four variables [mu1, mu2, pi1, pi2] that [em_algorithm] carries
    through its loop and returns (the MixtureState of the specification). *)
Record MixtureState : Type := mkState {
  mu1 : R;
  mu2 : R;
  pi1 : R;
  pi2 : R
}.

(** [initialize_parameters()] *)
Definition initialize_parameters : MixtureState :=
  let mean_with_planning := 2.0 in
  let mean_without_planning := 5.0 in
  let proportion_with_planning := 0.5 in
  let proportion_without_planning := 0.5 in
  mkState mean_with_planning mean_without_planning
          proportion_with_planning proportion_without_planning.

(** ** One pass of the loop body *)

(** [pi * np.exp(-mu) * (mu**data) / factorial(data)], broadcast over the
    sample. *)
Definition weighted_pmf (pi mu : R) (data : list nat) : list R :=
  map (fun x : nat => pi * exp (- mu) * mu ^ x / INR (fact x)) data.

(** The three arrays alive after the E-step: [r1] and [r2] after the in-place
    division, and [total_responsibility]. *)
Record Responsibilities : Type := mkResp {
  r1 : list R;
  r2 : list R;
  total_responsibility : list R
}.

Definition e_step (data : list nat) (s : MixtureState) : Responsibilities :=
  let r1 := weighted_pmf (pi1 s) (mu1 s) data in
  let r2 := weighted_pmf (pi2 s) (mu2 s) data in
  let total_responsibility := Np.zip_with Rplus r1 r2 in
  let r1 := Np.zip_with Rdiv r1 total_responsibility in
  let r2 := Np.zip_with Rdiv r2 total_responsibility in
  mkResp r1 r2 total_responsibility.

Definition m_step (data : list nat) (e : Responsibilities) : MixtureState :=
  let pi1 := Np.mean (r1 e) in
  let pi2 := 1 - pi1 in
  let mu1 := Np.sum (Np.zip_with Rmult (r1 e) (map INR data)) / Np.sum (r1 e) in
  let mu2 := Np.sum (Np.zip_with Rmult (r2 e) (map INR data)) / Np.sum (r2 e) in
  mkState mu1 mu2 pi1 pi2.

(** [np.sum(np.log(total_responsibility))] *)
Definition log_likelihood (e : Responsibilities) : R :=
  Np.sum (Np.log (total_responsibility e)).

(** ** The loop *)

Definition show_nat (n : nat) : string := NilEmpty.string_of_uint (Nat.to_uint n).

(** The line printed on convergence. *)
Definition converged_message (iteration : nat) : string :=
  ("Converged after " ++ show_nat iteration ++ " iterations.")%string.

(** What a call leaves behind: the value returned (or the exception
    raised) and the lines printed. *)
Record Outcome : Type := mkOutcome {
  returned : exn + (MixtureState * list R);
  printed : list string
}.

(** [for iteration in range(max_iter)], entered at [iteration] with
    [remaining] values of the range still to come. *)
Fixpoint em_loop (data : list nat) (tol : R) (remaining iteration : nat)
    (s : MixtureState) (log_likelihoods : list R) (out : list string) : Outcome :=
  match remaining with
  | O => mkOutcome (inr (s, log_likelihoods)) out
  | S remaining' =>
      let e := e_step data s in
      let s' := m_step data e in
      let log_likelihoods' := log_likelihoods ++ [log_likelihood e] in
      if (0 <? iteration)%nat then
        match getitem log_likelihoods' (-1), getitem log_likelihoods' (-2) with
        | inr last, inr before =>
            if Rlt_dec (Rabs (last - before)) tol then
              mkOutcome (inr (s', log_likelihoods'))
                        (out ++ [converged_message iteration])
            else em_loop data tol remaining' (S iteration) s' log_likelihoods' out
        | inl e, _ | _, inl e => mkOutcome (inl e) out
        end
      else em_loop data tol remaining' (S iteration) s' log_likelihoods' out
  end.

(** The loop of [em_algorithm] entered with the parameters [s] and an empty
    list of log-likelihoods. *)
Definition em_from (s : MixtureState) (data : list nat) (tol : R) (max_iter : nat)
  : Outcome :=
  em_loop data tol max_iter 0 s [] [].

(** [em_algorithm(data, tol, max_iter)].  The body first rebinds
    [mu1, mu2, pi1, pi2] from [initialize_parameters()]; its [n = len(data)]
    is never read and is left out. *)
Definition em_algorithm (data : list nat) (tol : R) (max_iter : nat) : Outcome :=
  em_from initialize_parameters data tol max_iter.

Definition default_tol : R := 1e-6.
Definition default_max_iter : nat := 100.

(** ** The notebook's module-level names *)

Module Notebook.

(** The module-level [mu1, mu2, pi1, pi2], bound by the cell that runs
    [mu1, mu2, pi1, pi2 = initialize_parameters()] and free to be rebound
    by the user before the fit is run. *)
Definition Globals : Type := MixtureState.

(** A call [em_algorithm(data, tol, max_iter)] made while the module-level
    names hold [g].  The body assigns [mu1, mu2, pi1, pi2] before any use
    and has no [global] statement, so the four names are local to the
    call: the module-level ones are neither read nor written. *)
Definition call_em_algorithm (g : Globals) (data : list nat) (tol : R)
    (max_iter : nat) : Outcome * Globals :=
  let mu1_mu2_pi1_pi2 := initialize_parameters in
  (em_from mu1_mu2_pi1_pi2 data tol max_iter, g).

End Notebook.

(** ** The states and log-likelihoods a run goes through *)

(** One full pass: E-step, then M-step. *)
Definition em_step (data : list nat) (s : MixtureState) : MixtureState :=
  m_step data (e_step data s).

(** The parameters at the start of iteration [k] of a run entered with [s0]. *)
Definition state_at (s0 : MixtureState) (data : list nat) (k : nat) : MixtureState :=
  Nat.iter k (em_step data) s0.

(** The log-likelihood computed in iteration [k]. *)
Definition ll_at (s0 : MixtureState) (data : list nat) (k : nat) : R :=
  log_likelihood (e_step data (state_at s0 data k)).

(** The log-likelihoods of iterations [0 .. n-1], in order. *)
Definition trace (s0 : MixtureState) (data : list nat) (n : nat) : list R :=
  map (ll_at s0 data) (seq 0 n).

(** The test that ends the loop in iteration [j]. *)
Definition stops_at (s0 : MixtureState) (data : list nat) (tol : R) (j : nat) : Prop :=
  (0 < j)%nat /\ Rabs (ll_at s0 data j - ll_at s0 data (j - 1)) < tol.

(** ** The iteration as the specification words it *)

Module Reference.

Definition poisson_pmf (x : nat) (lambda : R) : R :=
  exp (- lambda) * lambda ^ x / INR (fact x).

Definition u1 (s : MixtureState) (x : nat) : R := pi1 s * poisson_pmf x (mu1 s).
Definition u2 (s : MixtureState) (x : nat) : R := pi2 s * poisson_pmf x (mu2 s).

Definition r1 (s : MixtureState) (x : nat) : R := u1 s x / (u1 s x + u2 s x).
Definition r2 (s : MixtureState) (x : nat) : R := 1 - r1 s x.

(** Sum of [f x] over the points of the sample. *)
Definition sum_over (data : list nat) (f : nat -> R) : R :=
  fold_right (fun x acc => f x + acc) 0 data.

Definition step (data : list nat) (s : MixtureState) : MixtureState :=
  let weight_1 := sum_over data (r1 s) / INR (length data) in
  let weight_2 := 1 - weight_1 in
  let mean_1 := sum_over data (fun x => r1 s x * INR x) / sum_over data (r1 s) in
  let mean_2 := sum_over data (fun x => r2 s x * INR x) / sum_over data (r2 s) in
  mkState mean_1 mean_2 weight_1 weight_2.

Definition log_likelihood (data : list nat) (s : MixtureState) : R :=
  sum_over data (fun x => ln (u1 s x + u2 s x)).

End Reference.

(** ** Conditions on a state *)

(** No entry of [total_responsibility] is zero on the sample. *)
Definition nonzero_totals (data : list nat) (s : MixtureState) : Prop :=
  forall x, In x data -> Reference.u1 s x + Reference.u2 s x <> 0.

(** Both weights positive and both [mu ** x] positive on the sample: every
    unnormalised responsibility is then positive. *)
Definition positive_on (data : list nat) (s : MixtureState) : Prop :=
  0 < pi1 s /\ 0 < pi2 s /\
  forall x, In x data -> 0 < mu1 s ^ x /\ 0 < mu2 s ^ x.

(** The two weights sum to one, both are positive, both means are
    non-negative and every [mu ** x] on the sample is positive: the states a
    run of [em_algorithm] on a non-empty sample goes through. *)
Definition valid_on (data : list nat) (s : MixtureState) : Prop :=
  positive_on data s /\ 0 <= mu1 s /\ 0 <= mu2 s /\ pi1 s + pi2 s = 1.

(** The same mixture with the two components exchanged. *)
Definition swap_components (s : MixtureState) : MixtureState :=
  mkState (mu2 s) (mu1 s) (pi2 s) (pi1 s).

(** The mean of the mixture: each component's mean weighted by its
    proportion. *)
Definition mixture_mean (s : MixtureState) : R :=
  pi1 s * mu1 s + pi2 s * mu2 s.

(** The outcome of a call with [f] applied to the parameters returned. *)
Definition map_parameters (f : MixtureState -> MixtureState) (o : Outcome) : Outcome :=
  mkOutcome
    match returned o with
    | inl e => inl e
    | inr (s, log_likelihoods) => inr (f s, log_likelihoods)
    end
    (printed o).

(** ** The first E-step at one point, in binary64 *)

Module Binary64.

(** [np.exp(-2.0)] and [np.exp(-5.0)]: the binary64 numbers nearest to
    [exp (-2)] and [exp (-5)]. *)
Definition exp_minus_2 : float := 0x1.152aaa3bf81ccp-3%float.
Definition exp_minus_5 : float := 0x1.b993fe00d5376p-8%float.

(** The E-step at one point of the sample, in the order the code computes
    it, given the values of [np.exp(-mu)], [mu**x] and [factorial(x)] at
    that point: the two entries of [r1] and [r2] after the in-place
    divisions. *)
Definition e_step_point (pi1 pi2 exp1 exp2 pow1 pow2 fact_x : float) : float * float :=
  let r1 := (pi1 * exp1 * pow1 / fact_x)%float in
  let r2 := (pi2 * exp2 * pow2 / fact_x)%float in
  let total_responsibility := (r1 + r2)%float in
  let r1 := (r1 / total_responsibility)%float in
  let r2 := (r2 / total_responsibility)%float in
  (r1, r2).

(** The first iteration on the sample [[0]]: [2.0**0], [5.0**0] and
    [factorial(0)] are all [1.0]. *)
Definition first_e_step_at_zero : float * float :=
  e_step_point 0.5 0.5 exp_minus_2 exp_minus_5 1 1 1.

End Binary64.

(** * Properties *)

(** ** Indexing from the end *)

Lemma getitem_last (l : list R) (v : R) : getitem (l ++ [v]) (-1) = inr v.
Proof.
  unfold getitem. rewrite length_app. cbn [length Z.ltb Z.compare].
  replace (Z.of_nat (length l + 1) + -1)%Z with (Z.of_nat (length l)) by lia.
  destruct (Z.leb_spec 0 (Z.of_nat (length l))); [|lia].
  destruct (Z.ltb_spec (Z.of_nat (length l)) (Z.of_nat (length l + 1))); [|lia].
  cbn [andb]. rewrite Nat2Z.id, nth_error_app2, Nat.sub_diag by lia.
  reflexivity.
Qed.

Lemma getitem_before_last (l : list R) (u v : R) :
  getitem ((l ++ [u]) ++ [v]) (-2) = inr u.
Proof.
  unfold getitem. rewrite !length_app. cbn [length Z.ltb Z.compare].
  replace (Z.of_nat (length l + 1 + 1) + -2)%Z with (Z.of_nat (length l)) by lia.
  destruct (Z.leb_spec 0 (Z.of_nat (length l))); [|lia].
  destruct (Z.ltb_spec (Z.of_nat (length l)) (Z.of_nat (length l + 1 + 1))); [|lia].
  cbn [andb]. rewrite Nat2Z.id, nth_error_app1 by (rewrite length_app; cbn; lia).
  rewrite nth_error_app2, Nat.sub_diag by lia. reflexivity.
Qed.

(** A list too short for the index raises. *)
Lemma getitem_short (v : R) : getitem [v] (-2) = inl IndexError.
Proof. reflexivity. Qed.

(** ** Unfolding the run *)

Lemma state_at_S s0 data k : state_at s0 data (S k) = em_step data (state_at s0 data k).
Proof. reflexivity. Qed.

Lemma trace_S s0 data n : trace s0 data (S n) = trace s0 data n ++ [ll_at s0 data n].
Proof. unfold trace. rewrite seq_S, map_app. reflexivity. Qed.

Lemma trace_length s0 data n : length (trace s0 data n) = n.
Proof. unfold trace. rewrite length_map, length_seq. reflexivity. Qed.

Lemma trace_nth s0 data n k :
  (k < n)%nat -> nth_error (trace s0 data n) k = Some (ll_at s0 data k).
Proof.
  intros Hk. unfold trace. rewrite nth_error_map, nth_error_seq.
  destruct (Nat.ltb_spec k n); [reflexivity | lia].
Qed.

Section Run.

Variable s0 : MixtureState.
Variable data : list nat.
Variable tol : R.

Local Abbreviation st := (state_at s0 data).
Local Abbreviation tr := (trace s0 data).
Local Abbreviation ll := (ll_at s0 data).
Local Abbreviation stops := (stops_at s0 data tol).

(** The first pass never tests for convergence. *)
Lemma em_loop_first rem out :
  em_loop data tol (S rem) 0 (st 0%nat) (tr 0%nat) out
  = em_loop data tol rem 1 (st 1%nat) (tr 1%nat) out.
Proof. reflexivity. Qed.

(** A later pass stops when the last two log-likelihoods are within [tol]. *)
Lemma em_loop_later rem it out :
  (0 < it)%nat ->
  em_loop data tol (S rem) it (st it) (tr it) out
  = if Rlt_dec (Rabs (ll it - ll (it - 1))) tol
    then mkOutcome (inr (st (S it), tr (S it))) (out ++ [converged_message it])
    else em_loop data tol rem (S it) (st (S it)) (tr (S it)) out.
Proof.
  intros Hit. destruct it as [|j]; [lia|].
  cbn [em_loop Nat.ltb Nat.leb].
  rewrite (trace_S s0 data (S j)), (trace_S s0 data j).
  replace (log_likelihood (e_step data (state_at s0 data (S j))))
    with (ll_at s0 data (S j)) by reflexivity.
  rewrite getitem_last, getitem_before_last.
  replace (S j - 1)%nat with j by lia.
  reflexivity.
Qed.

(** Where a run entered at iteration [it] with [rem] passes left ends:
    either in the first iteration from [it] on whose test succeeds, with
    the message printed, or, no test succeeding, when the range is used up. *)
Lemma em_loop_cases rem : forall it out,
  (exists j, (it <= j < it + rem)%nat /\ stops j /\
             (forall k, (it <= k < j)%nat -> ~ stops k) /\
             em_loop data tol rem it (st it) (tr it) out
             = mkOutcome (inr (st (S j), tr (S j))) (out ++ [converged_message j]))
  \/ ((forall k, (it <= k < it + rem)%nat -> ~ stops k) /\
      em_loop data tol rem it (st it) (tr it) out
      = mkOutcome (inr (st (it + rem)%nat, tr (it + rem)%nat)) out).
Proof.
  induction rem as [|rem' IH]; intros it out.
  - right. split; [intros k Hk; lia|]. rewrite Nat.add_0_r. reflexivity.
  - assert (Hnext :
      (~ stops it) ->
      em_loop data tol (S rem') it (st it) (tr it) out
      = em_loop data tol rem' (S it) (st (S it)) (tr (S it)) out ->
      (exists j, (it <= j < it + S rem')%nat /\ stops j /\
             (forall k, (it <= k < j)%nat -> ~ stops k) /\
             em_loop data tol (S rem') it (st it) (tr it) out
             = mkOutcome (inr (st (S j), tr (S j))) (out ++ [converged_message j]))
      \/ ((forall k, (it <= k < it + S rem')%nat -> ~ stops k) /\
          em_loop data tol (S rem') it (st it) (tr it) out
          = mkOutcome (inr (st (it + S rem')%nat, tr (it + S rem')%nat)) out)).
    { intros Hno Heq. rewrite Heq.
      destruct (IH (S it) out) as [(j & Hj & Hs & Hmin & Hrun) | (Hnone & Hrun)].
      - left. exists j. split; [lia|]. split; [exact Hs|]. split; [|exact Hrun].
        intros k Hk. destruct (Nat.eq_dec k it) as [->|Hne]; [exact Hno|].
        apply Hmin. lia.
      - right. split.
        + intros k Hk. destruct (Nat.eq_dec k it) as [->|Hne]; [exact Hno|].
          apply Hnone. lia.
        + rewrite Hrun. replace (S it + rem')%nat with (it + S rem')%nat by lia.
          reflexivity. }
    destruct (Nat.eq_dec it 0) as [->|Hpos].
    + apply Hnext; [|apply em_loop_first].
      intros [Hlt _]. lia.
    + pose proof (em_loop_later rem' it out ltac:(lia)) as Hstep.
      destruct (Rlt_dec (Rabs (ll it - ll (it - 1))) tol) as [Hclose|Hfar].
      * left. exists it. split; [lia|]. split; [split; [lia|exact Hclose]|].
        split; [intros k Hk; lia | exact Hstep].
      * apply Hnext; [|exact Hstep].
        intros [_ Hlt]. exact (Hfar Hlt).
Qed.

End Run.

(** The whole run from [s0]: the number [n] of completed iterations, what is
    returned and what is printed. *)
Lemma em_from_run (s0 : MixtureState) (data : list nat) (tol : R) (max_iter : nat) :
  exists n : nat,
    (n <= max_iter)%nat /\
    ((0 < max_iter)%nat -> (1 <= n)%nat) /\
    ((2 <= max_iter)%nat -> (2 <= n)%nat) /\
    returned (em_from s0 data tol max_iter)
      = inr (state_at s0 data n, trace s0 data n) /\
    (forall k, (S k < n)%nat -> ~ stops_at s0 data tol k) /\
    ((stops_at s0 data tol (n - 1) /\
      printed (em_from s0 data tol max_iter) = [converged_message (n - 1)])
     \/
     (n = max_iter /\ (forall k, (k < n)%nat -> ~ stops_at s0 data tol k) /\
      printed (em_from s0 data tol max_iter) = [])).
Proof.
  unfold em_from.
  destruct (em_loop_cases s0 data tol max_iter 0 [])
    as [(j & Hj & Hs & Hmin & Hrun) | (Hnone & Hrun)];
    change (state_at s0 data 0) with s0 in Hrun;
    change (trace s0 data 0) with (@nil R) in Hrun; rewrite Hrun; cbn [returned printed].
  - exists (S j). assert (0 < j)%nat by apply Hs.
    replace (S j - 1)%nat with j by lia.
    repeat (split; [first [lia | reflexivity | (intros; lia)]|]).
    split.
    + intros k Hk. apply Hmin. lia.
    + left. split; [exact Hs | reflexivity].
  - exists max_iter. cbn [Nat.add] in *.
    repeat (split; [first [lia | reflexivity | (intros; lia)]|]).
    split.
    + intros k Hk. apply Hnone. lia.
    + right. split; [reflexivity|]. split; [|reflexivity].
      intros k Hk. apply Hnone. lia.
Qed.

(** The log-likelihood of the code is the sum the specification writes. *)
Lemma zip_with_map (f : R -> R -> R) (g h : nat -> R) (l : list nat) :
  Np.zip_with f (map g l) (map h l) = map (fun x => f (g x) (h x)) l.
Proof. induction l as [|x l IH]; cbn; [reflexivity | rewrite IH; reflexivity]. Qed.

Lemma sum_map (f : nat -> R) (l : list nat) :
  Np.sum (map f l) = Reference.sum_over l f.
Proof.
  unfold Np.sum, Reference.sum_over.
  induction l as [|x l IH]; cbn [map fold_right]; [reflexivity | rewrite IH; reflexivity].
Qed.

Lemma sum_over_ext (f g : nat -> R) (l : list nat) :
  (forall x, In x l -> f x = g x) -> Reference.sum_over l f = Reference.sum_over l g.
Proof.
  unfold Reference.sum_over.
  induction l as [|x l IH]; intros H; cbn [fold_right]; [reflexivity|].
  rewrite (H x (or_introl eq_refl)), IH; [reflexivity|].
  intros y Hy. apply H. right. exact Hy.
Qed.

Lemma weighted_pmf_reference (pi mu : R) (x : nat) :
  pi * exp (- mu) * mu ^ x / INR (fact x) = pi * Reference.poisson_pmf x mu.
Proof. unfold Reference.poisson_pmf, Rdiv. ring. Qed.

Lemma total_responsibility_reference (data : list nat) (s : MixtureState) :
  total_responsibility (e_step data s)
  = map (fun x => Reference.u1 s x + Reference.u2 s x) data.
Proof.
  unfold e_step, weighted_pmf. cbn [total_responsibility].
  rewrite zip_with_map. apply map_ext. intros x.
  rewrite !weighted_pmf_reference. reflexivity.
Qed.

Lemma log_likelihood_reference (data : list nat) (s : MixtureState) :
  log_likelihood (e_step data s) = Reference.log_likelihood data s.
Proof.
  unfold log_likelihood, Np.log. rewrite total_responsibility_reference, map_map.
  rewrite sum_map. reflexivity.
Qed.

(** ** The E-step and M-step against the specification's formulas *)

Lemma r1_reference (data : list nat) (s : MixtureState) :
  r1 (e_step data s) = map (Reference.r1 s) data.
Proof.
  unfold e_step, weighted_pmf. cbn [r1].
  rewrite !zip_with_map. apply map_ext. intros x.
  rewrite !weighted_pmf_reference. reflexivity.
Qed.

(** The code obtains [r2] by its own division, not as [1 - r1]. *)
Lemma r2_quotient (data : list nat) (s : MixtureState) :
  r2 (e_step data s)
  = map (fun x => Reference.u2 s x / (Reference.u1 s x + Reference.u2 s x)) data.
Proof.
  unfold e_step, weighted_pmf. cbn [r2].
  rewrite !zip_with_map. apply map_ext. intros x.
  rewrite !weighted_pmf_reference. reflexivity.
Qed.

Lemma r2_reference (data : list nat) (s : MixtureState) :
  nonzero_totals data s -> r2 (e_step data s) = map (Reference.r2 s) data.
Proof.
  intros Hnz. rewrite r2_quotient. apply map_ext_in. intros x Hx.
  unfold Reference.r2, Reference.r1. specialize (Hnz x Hx). field. exact Hnz.
Qed.

Lemma em_step_reference (data : list nat) (s : MixtureState) :
  nonzero_totals data s -> em_step data s = Reference.step data s.
Proof.
  intros Hnz. unfold em_step, m_step, Reference.step, Np.mean.
  rewrite (r2_reference data s Hnz), r1_reference.
  rewrite !zip_with_map, !sum_map, length_map. reflexivity.
Qed.

(** ** Positivity along a run *)

Lemma sum_over_nonneg (f : nat -> R) (l : list nat) :
  (forall x, In x l -> 0 <= f x) -> 0 <= Reference.sum_over l f.
Proof.
  unfold Reference.sum_over.
  induction l as [|x l IH]; intros H; cbn [fold_right]; [lra|].
  assert (0 <= f x) by (apply H; left; reflexivity).
  assert (0 <= fold_right (fun x acc => f x + acc) 0 l)
    by (apply IH; intros y Hy; apply H; right; exact Hy).
  lra.
Qed.

Lemma sum_over_ge_term (f : nat -> R) (l : list nat) (x : nat) :
  (forall y, In y l -> 0 <= f y) -> In x l -> f x <= Reference.sum_over l f.
Proof.
  induction l as [|y l IH]; intros H Hx; [destruct Hx|].
  change (Reference.sum_over (y :: l) f) with (f y + Reference.sum_over l f).
  assert (0 <= f y) by (apply H; left; reflexivity).
  assert (Hl : forall z, In z l -> 0 <= f z) by (intros z Hz; apply H; right; exact Hz).
  pose proof (sum_over_nonneg f l Hl).
  destruct Hx as [->|Hx]; [lra|].
  specialize (IH Hl Hx). lra.
Qed.

Lemma sum_over_pos (f : nat -> R) (l : list nat) :
  l <> [] -> (forall x, In x l -> 0 < f x) -> 0 < Reference.sum_over l f.
Proof.
  intros Hne H. destruct l as [|x l]; [congruence|].
  assert (0 < f x) by (apply H; left; reflexivity).
  assert (f x <= Reference.sum_over (x :: l) f).
  { apply sum_over_ge_term; [|left; reflexivity].
    intros y Hy. apply Rlt_le, H, Hy. }
  lra.
Qed.

Lemma sum_over_lt_length (f : nat -> R) (l : list nat) :
  l <> [] -> (forall x, In x l -> f x < 1) -> Reference.sum_over l f < INR (length l).
Proof.
  intros Hne H.
  assert (Hsum : Reference.sum_over l (fun x => 1 - f x) = INR (length l) - Reference.sum_over l f).
  { clear. unfold Reference.sum_over.
    induction l as [|x l IH]; [cbn; lra|].
    cbn [fold_right]. rewrite IH. change (length (x :: l)) with (S (length l)).
    rewrite S_INR. lra. }
  assert (0 < Reference.sum_over l (fun x => 1 - f x)).
  { apply sum_over_pos; [exact Hne|]. intros x Hx. specialize (H x Hx). lra. }
  lra.
Qed.

Lemma poisson_term_pos (pi mu : R) (x : nat) :
  0 < pi -> 0 < mu ^ x -> 0 < pi * Reference.poisson_pmf x mu.
Proof.
  intros Hpi Hpow. unfold Reference.poisson_pmf.
  apply Rmult_lt_0_compat; [exact Hpi|].
  apply Rdiv_lt_0_compat; [|apply INR_fact_lt_0].
  apply Rmult_lt_0_compat; [apply exp_pos | exact Hpow].
Qed.

Lemma positive_on_u (data : list nat) (s : MixtureState) :
  positive_on data s ->
  forall x, In x data -> 0 < Reference.u1 s x /\ 0 < Reference.u2 s x.
Proof.
  intros (H1 & H2 & Hpow) x Hx. destruct (Hpow x Hx) as [Hp1 Hp2].
  split; apply poisson_term_pos; assumption.
Qed.

Lemma positive_on_nonzero (data : list nat) (s : MixtureState) :
  positive_on data s -> nonzero_totals data s.
Proof.
  intros Hpos x Hx. destruct (positive_on_u data s Hpos x Hx). lra.
Qed.

Lemma positive_on_r (data : list nat) (s : MixtureState) :
  positive_on data s ->
  forall x, In x data -> 0 < Reference.r1 s x < 1 /\ 0 < Reference.r2 s x < 1.
Proof.
  intros Hpos x Hx. destruct (positive_on_u data s Hpos x Hx) as [H1 H2].
  assert (Hr1 : 0 < Reference.r1 s x).
  { unfold Reference.r1. apply Rdiv_lt_0_compat; lra. }
  assert (Hr2 : 0 < Reference.r2 s x).
  { unfold Reference.r2, Reference.r1.
    replace (1 - Reference.u1 s x / (Reference.u1 s x + Reference.u2 s x))
      with (Reference.u2 s x / (Reference.u1 s x + Reference.u2 s x))
      by (field; lra).
    apply Rdiv_lt_0_compat; lra. }
  unfold Reference.r2 in *. lra.
Qed.

(** A weighted mean of the sample, with positive weights, is positive at
    every positive point of the sample. *)
Lemma weighted_mean_pow_pos (w : nat -> R) (data : list nat) (x : nat) :
  (forall y, In y data -> 0 < w y) -> In x data ->
  0 < (Reference.sum_over data (fun y => w y * INR y) / Reference.sum_over data w) ^ x.
Proof.
  intros Hw Hx. destruct x as [|x']; [cbn; lra|].
  apply pow_lt. apply Rdiv_lt_0_compat.
  - assert (Hterm : 0 < w (S x') * INR (S x')).
    { apply Rmult_lt_0_compat; [apply Hw, Hx | apply lt_0_INR; lia]. }
    assert (w (S x') * INR (S x')
            <= Reference.sum_over data (fun y => w y * INR y)).
    { apply (sum_over_ge_term (fun y => w y * INR y)); [|exact Hx].
      intros y Hy. apply Rmult_le_pos; [apply Rlt_le, Hw, Hy | apply pos_INR]. }
    lra.
  - apply sum_over_pos; [|exact Hw]. intros ->. destruct Hx.
Qed.

Lemma positive_on_step (data : list nat) (s : MixtureState) :
  data <> [] -> positive_on data s -> positive_on data (Reference.step data s).
Proof.
  intros Hne Hpos. pose proof (positive_on_r data s Hpos) as Hr.
  assert (Hn : 0 < INR (length data)).
  { apply lt_0_INR. destruct data; [congruence | cbn; lia]. }
  assert (Hs1 : 0 < Reference.sum_over data (Reference.r1 s)).
  { apply sum_over_pos; [exact Hne|]. intros x Hx. apply Hr, Hx. }
  assert (Hs2 : Reference.sum_over data (Reference.r1 s) < INR (length data)).
  { apply sum_over_lt_length; [exact Hne|]. intros x Hx. apply Hr, Hx. }
  assert (Hw1 : 0 < Reference.sum_over data (Reference.r1 s) / INR (length data) < 1).
  { split; [apply Rdiv_lt_0_compat; assumption|].
    apply Rmult_lt_reg_r with (INR (length data)); [exact Hn|].
    unfold Rdiv. rewrite Rmult_assoc, Rinv_l by lra. lra. }
  unfold positive_on, Reference.step. cbn [pi1 pi2 mu1 mu2].
  split; [lra|]. split; [lra|].
  intros x Hx. split; apply weighted_mean_pow_pos; try exact Hx;
    intros y Hy; apply Hr, Hy.
Qed.

Lemma positive_on_initial (data : list nat) : positive_on data initialize_parameters.
Proof.
  unfold positive_on, initialize_parameters. cbn [pi1 pi2 mu1 mu2].
  split; [lra|]. split; [lra|].
  intros x _. split; apply pow_lt; lra.
Qed.

(** Every state of a run of [em_algorithm] on a non-empty sample keeps the
    unnormalised responsibilities positive. *)
Lemma positive_on_state_at (data : list nat) (k : nat) :
  data <> [] -> positive_on data (state_at initialize_parameters data k).
Proof.
  intros Hne. induction k as [|k IH]; [apply positive_on_initial|].
  rewrite state_at_S, em_step_reference by (apply positive_on_nonzero, IH).
  apply positive_on_step; assumption.
Qed.

Lemma nonzero_totals_state_at (data : list nat) (k : nat) :
  nonzero_totals data (state_at initialize_parameters data k).
Proof.
  destruct data as [|x data].
  - intros y [].
  - apply positive_on_nonzero, positive_on_state_at. discriminate.
Qed.

(** * The claims *)

(** ** Stopping rule *)

(** C5.  [em_algorithm] completes some number [n] of iterations, at most
    [max_iter], and returns the state and the log-likelihoods after them.  No
    iteration before the last one passed the test "after the first iteration,
    the last two log-likelihoods differ by less than [tol]".  Either the last
    iteration passed it, and the convergence line is printed; or no iteration
    passed it, all [max_iter] iterations ran and nothing is printed.  With
    [max_iter = 1] there is exactly one entry and nothing is printed. *)
Theorem em_algorithm_stopping_rule (data : list nat) (tol : R) (max_iter : nat) :
  exists n : nat,
    (n <= max_iter)%nat /\
    returned (em_algorithm data tol max_iter)
      = inr (state_at initialize_parameters data n,
             trace initialize_parameters data n) /\
    length (trace initialize_parameters data n) = n /\
    (forall k, (S k < n)%nat -> ~ stops_at initialize_parameters data tol k) /\
    ((stops_at initialize_parameters data tol (n - 1) /\
      printed (em_algorithm data tol max_iter) = [converged_message (n - 1)])
     \/
     (n = max_iter /\
      (forall k, (k < n)%nat -> ~ stops_at initialize_parameters data tol k) /\
      printed (em_algorithm data tol max_iter) = [])) /\
    (max_iter = 1%nat -> n = 1%nat /\ printed (em_algorithm data tol max_iter) = []).
Proof.
  unfold em_algorithm.
  destruct (em_from_run initialize_parameters data tol max_iter)
    as (n & Hle & Hge1 & _ & Hret & Hmin & Hend).
  exists n. split; [exact Hle|]. split; [exact Hret|].
  split; [apply trace_length|]. split; [exact Hmin|]. split; [exact Hend|].
  intros ->. assert (n = 1%nat) as -> by lia. split; [reflexivity|].
  destruct Hend as [[[Hlt _] _] | (_ & _ & Hp)]; [cbn in Hlt; lia | exact Hp].
Qed.

(** ** Log-likelihood trace *)

(** One pass of the loop at iteration [it] of a run: it appends exactly one
    entry, the log-likelihood under the parameters the pass started from,
    and then either stops or hands the longer list to the next pass. *)
Lemma em_loop_pass (s0 : MixtureState) (data : list nat) (tol : R)
    (rem it : nat) (out : list string) :
  let grown := trace s0 data it
               ++ [Reference.log_likelihood data (state_at s0 data it)] in
  em_loop data tol (S rem) it (state_at s0 data it) (trace s0 data it) out
  = mkOutcome (inr (state_at s0 data (S it), grown)) (out ++ [converged_message it])
  \/
  em_loop data tol (S rem) it (state_at s0 data it) (trace s0 data it) out
  = em_loop data tol rem (S it) (state_at s0 data (S it)) grown out.
Proof.
  intros grown.
  assert (Hgrown : grown = trace s0 data (S it)).
  { subst grown. rewrite trace_S. unfold ll_at.
    rewrite log_likelihood_reference. reflexivity. }
  rewrite Hgrown. destruct (Nat.eq_dec it 0) as [-> | Hpos].
  - right. apply em_loop_first.
  - rewrite em_loop_later by lia.
    destruct (Rlt_dec (Rabs (ll_at s0 data it - ll_at s0 data (it - 1))) tol);
      [left | right]; reflexivity.
Qed.

(** C6.  [em_algorithm] completes [n] iterations, where [n] is fixed by the
    stopping rule (the first iteration that passes the test, else the cap;
    at least two when the cap allows).  The returned state is the initial
    one updated [n] times and the returned list has exactly [n] entries;
    entry [k] is the sum over the sample of [ln (u1 x + u2 x)] taken with
    the parameters iteration [k] started from, not with those its M-step
    produced.  Each pass of the loop appends exactly one entry. *)
Theorem log_likelihood_trace (data : list nat) (tol : R) (max_iter : nat) :
  (exists (n : nat) (log_likelihoods : list R),
     (Nat.min max_iter 2 <= n <= max_iter)%nat /\
     (forall k, (S k < n)%nat -> ~ stops_at initialize_parameters data tol k) /\
     ((n < max_iter)%nat -> stops_at initialize_parameters data tol (n - 1)) /\
     returned (em_algorithm data tol max_iter)
       = inr (Nat.iter n (em_step data) initialize_parameters, log_likelihoods) /\
     length log_likelihoods = n /\
     forall k, (k < n)%nat ->
       nth_error log_likelihoods k
       = Some (Reference.log_likelihood data
                 (Nat.iter k (em_step data) initialize_parameters))) /\
  (forall (rem it : nat) (out : list string),
     let s := Nat.iter it (em_step data) initialize_parameters in
     let before := trace initialize_parameters data it in
     let grown := before ++ [Reference.log_likelihood data s] in
     em_loop data tol (S rem) it s before out
     = mkOutcome (inr (em_step data s, grown)) (out ++ [converged_message it])
     \/
     em_loop data tol (S rem) it s before out
     = em_loop data tol rem (S it) (em_step data s) grown out).
Proof.
  split.
  - unfold em_algorithm.
    destruct (em_from_run initialize_parameters data tol max_iter)
      as (n & Hle & Hge1 & Hge2 & Hret & Hmin & Hend).
    exists n, (trace initialize_parameters data n).
    split; [destruct max_iter as [|[|m]]; cbn [Nat.min]; lia|].
    split; [exact Hmin|].
    split; [intros Hlt; destruct Hend as [[Hs _] | (-> & _)]; [exact Hs | lia]|].
    split; [exact Hret|]. split; [apply trace_length|].
    intros k Hk. rewrite trace_nth by exact Hk.
    unfold ll_at. rewrite log_likelihood_reference. reflexivity.
  - intros rem it out. exact (em_loop_pass initialize_parameters data tol rem it out).
Qed.

(** ** Each iteration is the reference EM step *)

Lemma state_at_reference (data : list nat) (k : nat) :
  state_at initialize_parameters data k
  = Nat.iter k (Reference.step data) initialize_parameters.
Proof.
  induction k as [|k IH]; [reflexivity|].
  rewrite state_at_S, em_step_reference by apply nonzero_totals_state_at.
  rewrite IH. reflexivity.
Qed.

(** C7, as the code has it.  Under real arithmetic the run of
    [em_algorithm] is the reference EM step repeated: it completes [n]
    iterations ([n] as the stopping rule fixes it, at least two when the cap
    allows) and returns the initial parameters taken [n] times through the
    specification's step, with the [n] log-likelihoods of the states passed.
    In iteration [k], with [s] the parameters it starts from, the E-step
    arrays are [r1 x = u1 x / (u1 x + u2 x)] and [r2 x = u2 x / (u1 x + u2 x)]
    (the code divides [r2] by the total as well), the latter being
    [1 - r1 x]; and the M-step gives the specification's weights and means. *)
Theorem em_iteration_is_reference_step (data : list nat) (tol : R)
    (max_iter : nat) :
  exists (n : nat) (log_likelihoods : list R),
    (Nat.min max_iter 2 <= n <= max_iter)%nat /\
    returned (em_algorithm data tol max_iter)
      = inr (Nat.iter n (Reference.step data) initialize_parameters,
             log_likelihoods) /\
    length log_likelihoods = n /\
    forall k, (k < n)%nat ->
      let s := Nat.iter k (Reference.step data) initialize_parameters in
      nth_error log_likelihoods k = Some (Reference.log_likelihood data s) /\
      r1 (e_step data s) = map (Reference.r1 s) data /\
      r2 (e_step data s)
      = map (fun x => Reference.u2 s x / (Reference.u1 s x + Reference.u2 s x)) data /\
      r2 (e_step data s) = map (Reference.r2 s) data /\
      m_step data (e_step data s) = Reference.step data s.
Proof.
  unfold em_algorithm.
  destruct (em_from_run initialize_parameters data tol max_iter)
    as (n & Hle & Hge1 & Hge2 & Hret & _).
  exists n, (trace initialize_parameters data n).
  split; [destruct max_iter as [|[|m]]; cbn [Nat.min]; lia|].
  split; [rewrite <- state_at_reference; exact Hret|].
  split; [apply trace_length|].
  intros k Hk. cbv zeta. rewrite <- state_at_reference.
  pose proof (nonzero_totals_state_at data k) as Hnz.
  split; [rewrite trace_nth by exact Hk; unfold ll_at;
          rewrite log_likelihood_reference; reflexivity|].
  split; [apply r1_reference|].
  split; [apply r2_quotient|].
  split; [apply r2_reference, Hnz|].
  apply (em_step_reference data _ Hnz).
Qed.

(** C7, counterexample.  In binary64, in the first iteration on the sample
    [[0]], the entry of [r2] the code computes is not [1 - r1]: the code
    divides [r2] by the total, and the two differ in the last digits:
    [r1] is 0.9525741268224331, [r2] is 0.047425873177566774 and [1 - r1]
    is 0.04742587317756686. *)
Lemma r2_is_not_one_minus_r1_in_binary64 :
  let (r1, r2) := Binary64.first_e_step_at_zero in
  r1 = 0x1.e7b7cbc36fabbp-1%float /\
  r2 = 0x1.848343c905444p-5%float /\
  (1 - r1)%float = 0x1.848343c90545p-5%float /\
  PrimFloat.eqb r2 (1 - r1)%float = false.
Proof. vm_compute. repeat split. Qed.

(** ** Weights *)

Lemma weights_after_m_step (data : list nat) (e : Responsibilities) :
  pi1 (m_step data e) + pi2 (m_step data e) = 1.
Proof. unfold m_step. cbn [pi1 pi2]. ring. Qed.

Lemma weights_initial : pi1 initialize_parameters + pi2 initialize_parameters = 1.
Proof. unfold initialize_parameters. cbn [pi1 pi2]. lra. Qed.

Lemma weights_state_at (data : list nat) (k : nat) :
  pi1 (state_at initialize_parameters data k)
  + pi2 (state_at initialize_parameters data k) = 1.
Proof.
  destruct k as [|k]; [apply weights_initial|].
  rewrite state_at_S. apply weights_after_m_step.
Qed.

(** C8.  The two weights sum to one in the initial state and after the
    M-step of every iteration, hence also in the state [em_algorithm]
    returns. *)
Theorem weights_sum_to_one (data : list nat) (tol : R) (max_iter : nat) :
  (forall k : nat,
     pi1 (state_at initialize_parameters data k)
     + pi2 (state_at initialize_parameters data k) = 1) /\
  exists s log_likelihoods,
    returned (em_algorithm data tol max_iter) = inr (s, log_likelihoods) /\
    pi1 s + pi2 s = 1.
Proof.
  split; [apply weights_state_at|].
  destruct (em_from_run initialize_parameters data tol max_iter)
    as (n & _ & _ & _ & Hret & _).
  exists (state_at initialize_parameters data n), (trace initialize_parameters data n).
  split; [exact Hret | apply weights_state_at].
Qed.

(** ** Responsibilities *)

(** C9.  At every position of the sample where the unnormalised sum
    [total_responsibility] is not zero, the two normalised responsibilities
    of the E-step sum to one. *)
Theorem responsibilities_sum_to_one (data : list nat) (s : MixtureState)
    (i : nat) (a b t : R) :
  nth_error (r1 (e_step data s)) i = Some a ->
  nth_error (r2 (e_step data s)) i = Some b ->
  nth_error (total_responsibility (e_step data s)) i = Some t ->
  t <> 0 ->
  a + b = 1.
Proof.
  rewrite r1_reference, r2_quotient, total_responsibility_reference.
  rewrite !nth_error_map.
  destruct (nth_error data i) as [x|]; cbn [option_map]; [|discriminate].
  intros [= <-] [= <-] [= <-] Ht. unfold Reference.r1. field. exact Ht.
Qed.

(** In a run of [em_algorithm] no entry of [total_responsibility] is zero. *)
Lemma total_responsibility_nonzero (data : list nat) (k i : nat) (t : R) :
  nth_error (total_responsibility
               (e_step data (state_at initialize_parameters data k))) i = Some t ->
  t <> 0.
Proof.
  rewrite total_responsibility_reference, nth_error_map.
  destruct (nth_error data i) as [x|] eqn:Hx; cbn [option_map]; [|discriminate].
  intros [= <-]. apply nonzero_totals_state_at. eapply nth_error_In, Hx.
Qed.

(** ** Initial state *)

(** C10.  A call reads no module-level parameter and leaves the module-level
    names as they were: whatever they hold, the call is the loop entered with
    [mu1 = 2.0], [mu2 = 5.0], [pi1 = pi2 = 0.5], so two calls with the same
    sample, tolerance and cap give the same parameters, the same list of
    log-likelihoods and the same output; with a positive cap the first
    log-likelihood returned is the one of the built-in parameters. *)
Theorem em_algorithm_ignores_module_state (g g' : Notebook.Globals)
    (data : list nat) (tol : R) (max_iter : nat) :
  fst (Notebook.call_em_algorithm g data tol max_iter)
  = fst (Notebook.call_em_algorithm g' data tol max_iter) /\
  snd (Notebook.call_em_algorithm g data tol max_iter) = g /\
  fst (Notebook.call_em_algorithm g data tol max_iter)
  = em_algorithm data tol max_iter /\
  em_algorithm data tol max_iter
  = em_from (mkState 2.0 5.0 0.5 0.5) data tol max_iter /\
  ((0 < max_iter)%nat ->
   exists (s : MixtureState) (log_likelihoods : list R),
     returned (fst (Notebook.call_em_algorithm g data tol max_iter))
     = inr (s, log_likelihoods) /\
     nth_error log_likelihoods 0
     = Some (Reference.log_likelihood data (mkState 2.0 5.0 0.5 0.5))).
Proof.
  split; [reflexivity|]. split; [reflexivity|]. split; [reflexivity|].
  split; [reflexivity|]. intros Hpos.
  change (fst (Notebook.call_em_algorithm g data tol max_iter))
    with (em_from initialize_parameters data tol max_iter).
  destruct (em_from_run initialize_parameters data tol max_iter)
    as (n & _ & Hge1 & _ & Hret & _).
  specialize (Hge1 Hpos).
  exists (state_at initialize_parameters data n), (trace initialize_parameters data n).
  split; [exact Hret|].
  rewrite trace_nth by lia. unfold ll_at.
  rewrite log_likelihood_reference. reflexivity.
Qed.

(** ** What a call returns *)

(** C1, as the code has it.  With a positive cap, [em_algorithm] completes
    [n >= 1] iterations and returns the parameters after the M-step of the
    last of them together with the [n] log-likelihoods, one per completed
    iteration.  The returned value holds nothing else: that the loop ended on
    the convergence test shows only in the printed line, which is there
    exactly when the last iteration passed the test; otherwise all [max_iter]
    iterations ran. *)
Theorem em_algorithm_returns_state_and_trace (data : list nat) (tol : R)
    (max_iter : nat) :
  (0 < max_iter)%nat ->
  exists n : nat,
    (1 <= n <= max_iter)%nat /\
    returned (em_algorithm data tol max_iter)
      = inr (state_at initialize_parameters data n,
             trace initialize_parameters data n) /\
    length (trace initialize_parameters data n) = n /\
    ((stops_at initialize_parameters data tol (n - 1) /\
      printed (em_algorithm data tol max_iter) = [converged_message (n - 1)])
     \/
     (~ stops_at initialize_parameters data tol (n - 1) /\ n = max_iter /\
      printed (em_algorithm data tol max_iter) = [])).
Proof.
  intros Hpos. unfold em_algorithm.
  destruct (em_from_run initialize_parameters data tol max_iter)
    as (n & Hle & Hge1 & _ & Hret & _ & Hend).
  exists n. specialize (Hge1 Hpos).
  split; [lia|]. split; [exact Hret|]. split; [apply trace_length|].
  destruct Hend as [Hconv | (Hn & Hnone & Hp)]; [left; exact Hconv|].
  right. split; [apply Hnone; lia|]. split; assumption.
Qed.

(** ** No validation *)

(** C3, as the code has it.  [em_algorithm] checks nothing about its input:
    for every sample, the empty one included, every tolerance and every
    positive cap it runs the E-step and the M-step of the first iteration
    from the built-in parameters and returns a state and a list that starts
    with the log-likelihood of that iteration; it raises nothing. *)
Theorem em_algorithm_runs_unvalidated (data : list nat) (tol : R) (max_iter : nat) :
  (0 < max_iter)%nat ->
  exists (n : nat) (s : MixtureState) (log_likelihoods : list R),
    returned (em_algorithm data tol max_iter) = inr (s, log_likelihoods) /\
    (1 <= n)%nat /\
    length log_likelihoods = n /\
    s = Nat.iter (n - 1) (em_step data)
          (m_step data (e_step data initialize_parameters)) /\
    nth_error log_likelihoods 0
    = Some (log_likelihood (e_step data initialize_parameters)).
Proof.
  intros Hpos. unfold em_algorithm.
  destruct (em_from_run initialize_parameters data tol max_iter)
    as (n & _ & Hge1 & _ & Hret & _).
  specialize (Hge1 Hpos).
  exists n, (state_at initialize_parameters data n), (trace initialize_parameters data n).
  split; [exact Hret|]. split; [exact Hge1|]. split; [apply trace_length|].
  split; [|rewrite trace_nth by lia; reflexivity].
  destruct n as [|m]; [lia|]. cbn [Nat.sub]. rewrite Nat.sub_0_r.
  unfold state_at. rewrite Nat.iter_succ_r. reflexivity.
Qed.

(** ** No guard on the responsibility mass *)

(** C4, as the code has it.  Let iteration [k] of a run be reached (no
    earlier iteration passed the convergence test, and [k] is below the cap)
    with the total responsibility of a component equal to zero.  The run
    does not end there with an error: the M-step divides by that total, the
    iteration is completed, and the run returns normally after [n > k]
    iterations under the usual stopping rule. *)
Theorem zero_mass_iteration_completes (s0 : MixtureState) (data : list nat)
    (tol : R) (max_iter k : nat) :
  (k < max_iter)%nat ->
  (forall j, (j < k)%nat -> ~ stops_at s0 data tol j) ->
  Np.sum (r1 (e_step data (state_at s0 data k))) = 0
  \/ Np.sum (r2 (e_step data (state_at s0 data k))) = 0 ->
  exists n : nat,
    (k < n <= max_iter)%nat /\
    returned (em_from s0 data tol max_iter)
      = inr (state_at s0 data n, trace s0 data n) /\
    state_at s0 data (S k) = m_step data (e_step data (state_at s0 data k)) /\
    nth_error (trace s0 data n) k
    = Some (log_likelihood (e_step data (state_at s0 data k))).
Proof.
  intros Hk Hbefore _.
  destruct (em_from_run s0 data tol max_iter)
    as (n & Hle & _ & _ & Hret & _ & Hend).
  exists n.
  assert (Hn : (k < n)%nat).
  { destruct Hend as [[Hs _] | (-> & _)]; [|exact Hk].
    destruct (Nat.lt_ge_cases k n) as [Hlt|Hge]; [exact Hlt|].
    exfalso. assert (0 < n - 1)%nat by apply Hs.
    apply (Hbefore (n - 1)%nat); [lia | exact Hs]. }
  split; [lia|]. split; [exact Hret|]. split; [reflexivity|].
  rewrite trace_nth by exact Hn. reflexivity.
Qed.

(** * Concrete runs *)

(** ** Short runs *)

Section ShortRuns.

Variable s0 : MixtureState.
Variable data : list nat.
Variable tol : R.

(** The second iteration passes the test: the run ends there. *)
Lemma em_from_converges_second (max_iter : nat) :
  (2 <= max_iter)%nat ->
  Rabs (ll_at s0 data 1 - ll_at s0 data 0) < tol ->
  em_from s0 data tol max_iter
  = mkOutcome (inr (state_at s0 data 2, trace s0 data 2)) [converged_message 1].
Proof.
  intros Hcap Hclose. destruct max_iter as [|[|m]]; [lia | lia |].
  unfold em_from.
  etransitivity; [exact (em_loop_first s0 data tol (S m) [])|].
  rewrite (em_loop_later s0 data tol m 1 []) by lia. cbn [Nat.sub].
  destruct (Rlt_dec (Rabs (ll_at s0 data 1 - ll_at s0 data 0)) tol);
    [reflexivity | contradiction].
Qed.

(** The second iteration fails the test and the cap is two. *)
Lemma em_from_cap_two :
  ~ Rabs (ll_at s0 data 1 - ll_at s0 data 0) < tol ->
  em_from s0 data tol 2
  = mkOutcome (inr (state_at s0 data 2, trace s0 data 2)) [].
Proof.
  intros Hfar. unfold em_from.
  etransitivity; [exact (em_loop_first s0 data tol 1 [])|].
  rewrite (em_loop_later s0 data tol 0 1 []) by lia. cbn [Nat.sub].
  destruct (Rlt_dec (Rabs (ll_at s0 data 1 - ll_at s0 data 0)) tol);
    [contradiction | reflexivity].
Qed.

(** The second iteration fails the test and the third passes it. *)
Lemma em_from_converges_third (max_iter : nat) :
  (3 <= max_iter)%nat ->
  ~ Rabs (ll_at s0 data 1 - ll_at s0 data 0) < tol ->
  Rabs (ll_at s0 data 2 - ll_at s0 data 1) < tol ->
  em_from s0 data tol max_iter
  = mkOutcome (inr (state_at s0 data 3, trace s0 data 3)) [converged_message 2].
Proof.
  intros Hcap Hfar Hclose. destruct max_iter as [|[|[|m]]]; [lia | lia | lia |].
  unfold em_from.
  etransitivity; [exact (em_loop_first s0 data tol (S (S m)) [])|].
  rewrite (em_loop_later s0 data tol (S m) 1 []) by lia. cbn [Nat.sub].
  destruct (Rlt_dec (Rabs (ll_at s0 data 1 - ll_at s0 data 0)) tol);
    [contradiction|].
  rewrite (em_loop_later s0 data tol m 2 []) by lia. cbn [Nat.sub].
  destruct (Rlt_dec (Rabs (ll_at s0 data 2 - ll_at s0 data 1)) tol);
    [reflexivity | contradiction].
Qed.

End ShortRuns.

(** ** The sample [[0]]: one family without children *)

Lemma u1_at_zero (s : MixtureState) : Reference.u1 s 0 = pi1 s * exp (- mu1 s).
Proof. unfold Reference.u1, Reference.poisson_pmf. cbn [pow fact INR]. field. Qed.

Lemma u2_at_zero (s : MixtureState) : Reference.u2 s 0 = pi2 s * exp (- mu2 s).
Proof. unfold Reference.u2, Reference.poisson_pmf. cbn [pow fact INR]. field. Qed.

Lemma ll_single_zero (s : MixtureState) :
  log_likelihood (e_step [0%nat] s)
  = ln (pi1 s * exp (- mu1 s) + pi2 s * exp (- mu2 s)).
Proof.
  rewrite log_likelihood_reference. unfold Reference.log_likelihood, Reference.sum_over.
  cbn [fold_right]. rewrite u1_at_zero, u2_at_zero. ring.
Qed.

(** After one pass over [[0]] both means are zero. *)
Lemma means_single_zero (s : MixtureState) :
  mu1 (em_step [0%nat] s) = 0 /\ mu2 (em_step [0%nat] s) = 0.
Proof.
  unfold em_step, m_step, e_step, weighted_pmf.
  cbn [mu1 mu2 r1 r2 map Np.zip_with Np.sum fold_right INR].
  unfold Rdiv. split; ring.
Qed.

(** From the second iteration on the log-likelihood on [[0]] is zero. *)
Lemma ll_at_single_zero (s0 : MixtureState) (k : nat) : ll_at s0 [0%nat] (S k) = 0.
Proof.
  unfold ll_at. rewrite ll_single_zero, state_at_S.
  destruct (means_single_zero (state_at s0 [0%nat] k)) as [-> ->].
  rewrite Ropp_0, exp_0, !Rmult_1_r. unfold em_step.
  rewrite weights_after_m_step. apply ln_1.
Qed.

(** The first log-likelihood of [em_algorithm] on [[0]] lies between -5 and -2. *)
Lemma ll_at_single_zero_first :
  -5 < ll_at initialize_parameters [0%nat] 0 < -2.
Proof.
  unfold ll_at. change (state_at initialize_parameters [0%nat] 0) with initialize_parameters.
  rewrite ll_single_zero. unfold initialize_parameters. cbn [pi1 pi2 mu1 mu2].
  assert (H25 : exp (- (5.0)) < exp (- (2.0))) by (apply exp_increasing; lra).
  assert (H5 : 0 < exp (- (5.0))) by apply exp_pos.
  assert (Hlo : ln (exp (- (5.0))) < ln (0.5 * exp (- (2.0)) + 0.5 * exp (- (5.0))))
    by (apply ln_increasing; lra).
  assert (Hhi : ln (0.5 * exp (- (2.0)) + 0.5 * exp (- (5.0))) < ln (exp (- (2.0))))
    by (apply ln_increasing; lra).
  rewrite ln_exp in Hlo, Hhi. lra.
Qed.

Lemma first_gap_single_zero :
  2 < Rabs (ll_at initialize_parameters [0%nat] 1
            - ll_at initialize_parameters [0%nat] 0) < 5.
Proof.
  rewrite ll_at_single_zero. pose proof ll_at_single_zero_first as H.
  rewrite Rabs_pos_eq by lra. lra.
Qed.

(** ** The returned value carries no convergence indicator *)

(** C1, counterexample.  On the sample [[0]] with cap 2, the call with
    tolerance 6 ends on the convergence test of its second iteration and
    the call with tolerance 1 ends because the cap is used up; both return
    the same parameters and the same list.  Only the printed line tells
    them apart. *)
Lemma returned_value_has_no_indicator :
  returned (em_algorithm [0%nat] 6 2) = returned (em_algorithm [0%nat] 1 2) /\
  printed (em_algorithm [0%nat] 6 2) = ["Converged after 1 iterations."%string] /\
  printed (em_algorithm [0%nat] 1 2) = [].
Proof.
  pose proof first_gap_single_zero as Hgap.
  unfold em_algorithm.
  rewrite (em_from_converges_second initialize_parameters [0%nat] 6 2) by (lia || lra).
  rewrite (em_from_cap_two initialize_parameters [0%nat] 1) by lra.
  repeat split.
Qed.

Lemma em_algorithm_returns_state_and_trace_witness :
  (0 < 2)%nat /\
  exists n : nat,
    (1 <= n <= 2)%nat /\
    returned (em_algorithm [0%nat] 1 2)
      = inr (state_at initialize_parameters [0%nat] n,
             trace initialize_parameters [0%nat] n) /\
    length (trace initialize_parameters [0%nat] n) = n /\
    ((stops_at initialize_parameters [0%nat] 1 (n - 1) /\
      printed (em_algorithm [0%nat] 1 2) = [converged_message (n - 1)])
     \/
     (~ stops_at initialize_parameters [0%nat] 1 (n - 1) /\ n = 2%nat /\
      printed (em_algorithm [0%nat] 1 2) = [])).
Proof.
  split; [lia|]. apply (em_algorithm_returns_state_and_trace [0%nat] 1 2). lia.
Defined.

(** ** The empty sample *)

Lemma ll_at_empty (s0 : MixtureState) (k : nat) : ll_at s0 [] k = 0.
Proof. reflexivity. Qed.

Lemma em_from_empty (s0 : MixtureState) (tol : R) (max_iter : nat) :
  (2 <= max_iter)%nat -> 0 < tol ->
  em_from s0 [] tol max_iter
  = mkOutcome (inr (state_at s0 [] 2, [0; 0])) [converged_message 1].
Proof.
  intros Hcap Htol. apply em_from_converges_second; [exact Hcap|].
  rewrite !ll_at_empty, Rminus_diag, Rabs_R0. exact Htol.
Qed.

Lemma em_algorithm_empty_default :
  em_algorithm [] default_tol default_max_iter
  = mkOutcome (inr (state_at initialize_parameters [] 2, [0; 0]))
              [converged_message 1].
Proof.
  unfold em_algorithm. apply em_from_empty; unfold default_max_iter, default_tol;
    [lia | lra].
Qed.

(** C3, counterexample.  The empty sample is not rejected: with the default
    tolerance and cap two iterations run, two log-likelihoods (both the empty
    sum) are returned, and convergence is printed. *)
Lemma empty_sample_is_not_rejected :
  exists s : MixtureState,
    em_algorithm [] default_tol default_max_iter
    = mkOutcome (inr (s, [0; 0])) ["Converged after 1 iterations."%string].
Proof.
  eexists. rewrite em_algorithm_empty_default. reflexivity.
Qed.

Lemma em_algorithm_runs_unvalidated_witness :
  (0 < 1)%nat /\
  exists (n : nat) (s : MixtureState) (log_likelihoods : list R),
    returned (em_algorithm [] (-1) 1) = inr (s, log_likelihoods) /\
    (1 <= n)%nat /\
    length log_likelihoods = n /\
    s = Nat.iter (n - 1) (em_step [])
          (m_step [] (e_step [] initialize_parameters)) /\
    nth_error log_likelihoods 0
    = Some (log_likelihood (e_step [] initialize_parameters)).
Proof.
  split; [lia|]. apply (em_algorithm_runs_unvalidated [] (-1) 1). lia.
Defined.

(** C4, counterexample.  On the empty sample the total responsibility of
    both components is zero in the first iteration (there is nothing to
    sum); the run goes through that iteration and the next one and returns
    normally. *)
Lemma zero_mass_is_not_reported :
  Np.sum (r1 (e_step [] initialize_parameters)) = 0 /\
  Np.sum (r2 (e_step [] initialize_parameters)) = 0 /\
  exists s : MixtureState,
    returned (em_algorithm [] default_tol default_max_iter) = inr (s, [0; 0]).
Proof.
  split; [reflexivity|]. split; [reflexivity|].
  eexists. rewrite em_algorithm_empty_default. reflexivity.
Qed.

Lemma zero_mass_iteration_completes_witness :
  (0 < 2)%nat /\
  (forall j, (j < 0)%nat -> ~ stops_at initialize_parameters [] default_tol j) /\
  (Np.sum (r1 (e_step [] (state_at initialize_parameters [] 0))) = 0
   \/ Np.sum (r2 (e_step [] (state_at initialize_parameters [] 0))) = 0) /\
  exists n : nat,
    (0 < n <= 2)%nat /\
    returned (em_from initialize_parameters [] default_tol 2)
      = inr (state_at initialize_parameters [] n, trace initialize_parameters [] n) /\
    state_at initialize_parameters [] 1
    = m_step [] (e_step [] (state_at initialize_parameters [] 0)) /\
    nth_error (trace initialize_parameters [] n) 0
    = Some (log_likelihood (e_step [] (state_at initialize_parameters [] 0))).
Proof.
  split; [lia|]. split; [intros j Hj; lia|]. split; [left; reflexivity|].
  apply (zero_mass_iteration_completes initialize_parameters [] default_tol 2 0).
  - lia.
  - intros j Hj. lia.
  - left. reflexivity.
Defined.

(** ** Restarting the loop *)

Lemma state_at_fixed (s : MixtureState) (data : list nat) (k : nat) :
  em_step data s = s -> state_at s data k = s.
Proof.
  intros Hfix. induction k as [|k IH]; [reflexivity|].
  rewrite state_at_S, IH. exact Hfix.
Qed.

(** C2, counterexample.  On the sample [[0]] with the default tolerance and
    cap, [em_algorithm] converges in its third iteration.  The loop entered
    again with the parameters it returned stops in its second iteration: the
    list returned has two entries, not one. *)
Lemma refit_from_converged_state_takes_two_iterations :
  exists (s : MixtureState) (log_likelihoods : list R),
    em_algorithm [0%nat] default_tol default_max_iter
    = mkOutcome (inr (s, log_likelihoods)) ["Converged after 2 iterations."%string] /\
    exists (s' : MixtureState) (log_likelihoods' : list R),
      em_from s [0%nat] default_tol default_max_iter
      = mkOutcome (inr (s', log_likelihoods')) ["Converged after 1 iterations."%string] /\
      length log_likelihoods' = 2%nat.
Proof.
  pose proof first_gap_single_zero as Hgap.
  assert (Htol : 0 < default_tol < 1) by (unfold default_tol; lra).
  assert (Hcap : (3 <= default_max_iter)%nat) by (unfold default_max_iter; lia).
  exists (state_at initialize_parameters [0%nat] 3),
         (trace initialize_parameters [0%nat] 3).
  split.
  - unfold em_algorithm. rewrite em_from_converges_third.
    + reflexivity.
    + exact Hcap.
    + lra.
    + rewrite !ll_at_single_zero, Rminus_diag, Rabs_R0. lra.
  - eexists _, _. split.
    + rewrite em_from_converges_second.
      * reflexivity.
      * lia.
      * rewrite ll_at_single_zero. unfold ll_at at 1.
        change (state_at (state_at initialize_parameters [0%nat] 3) [0%nat] 0)
          with (state_at initialize_parameters [0%nat] 3).
        fold (ll_at initialize_parameters [0%nat] 3).
        rewrite ll_at_single_zero, Rminus_diag, Rabs_R0. lra.
    + reflexivity.
Qed.

(** ** A position with non-zero total *)

Lemma responsibilities_sum_to_one_witness :
  exists a b t : R,
    nth_error (r1 (e_step [0%nat] initialize_parameters)) 0 = Some a /\
    nth_error (r2 (e_step [0%nat] initialize_parameters)) 0 = Some b /\
    nth_error (total_responsibility (e_step [0%nat] initialize_parameters)) 0 = Some t /\
    t <> 0 /\
    a + b = 1.
Proof.
  eexists _, _, _.
  split; [reflexivity|]. split; [reflexivity|]. split; [reflexivity|].
  assert (Ht : forall t, nth_error (total_responsibility
                 (e_step [0%nat] initialize_parameters)) 0 = Some t -> t <> 0)
    by (intros t; exact (total_responsibility_nonzero [0%nat] 0 0 t)).
  split; [exact (Ht _ eq_refl)|].
  exact (responsibilities_sum_to_one [0%nat] initialize_parameters 0 _ _ _
           eq_refl eq_refl eq_refl (Ht _ eq_refl)).
Defined.

(** * Further properties of the fit *)

(** ** Sums over the sample *)

Lemma sum_over_plus (f g : nat -> R) (l : list nat) :
  Reference.sum_over l (fun x => f x + g x)
  = Reference.sum_over l f + Reference.sum_over l g.
Proof.
  unfold Reference.sum_over.
  induction l as [|x l IH]; cbn [fold_right]; [lra | rewrite IH; lra].
Qed.

Lemma sum_over_scal (c : R) (f : nat -> R) (l : list nat) :
  Reference.sum_over l (fun x => c * f x) = c * Reference.sum_over l f.
Proof.
  unfold Reference.sum_over.
  induction l as [|x l IH]; cbn [fold_right]; [lra | rewrite IH; lra].
Qed.

Lemma sum_over_const (c : R) (l : list nat) :
  Reference.sum_over l (fun _ => c) = INR (length l) * c.
Proof.
  unfold Reference.sum_over.
  induction l as [|x l IH]; [cbn; lra|].
  cbn [fold_right]. rewrite IH. change (length (x :: l)) with (S (length l)).
  rewrite S_INR. lra.
Qed.

Lemma sum_over_le (f g : nat -> R) (l : list nat) :
  (forall x, In x l -> f x <= g x) ->
  Reference.sum_over l f <= Reference.sum_over l g.
Proof.
  unfold Reference.sum_over.
  induction l as [|x l IH]; intros H; cbn [fold_right]; [lra|].
  assert (f x <= g x) by (apply H; left; reflexivity).
  assert (fold_right (fun x acc => f x + acc) 0 l
          <= fold_right (fun x acc => g x + acc) 0 l)
    by (apply IH; intros y Hy; apply H; right; exact Hy).
  lra.
Qed.

Lemma sum_over_r1_r2 (data : list nat) (s : MixtureState) :
  Reference.sum_over data (Reference.r1 s) + Reference.sum_over data (Reference.r2 s)
  = INR (length data).
Proof.
  rewrite <- sum_over_plus.
  rewrite (sum_over_ext _ (fun _ => 1)).
  - rewrite sum_over_const. ring.
  - intros x _. unfold Reference.r2. ring.
Qed.

Lemma length_pos_INR (data : list nat) : data <> [] -> 0 < INR (length data).
Proof. intros Hne. apply lt_0_INR. destruct data; [congruence | cbn; lia]. Qed.

(** ** Valid states along a run *)

Lemma valid_on_initial (data : list nat) : valid_on data initialize_parameters.
Proof.
  split; [apply positive_on_initial|].
  unfold initialize_parameters. cbn [mu1 mu2 pi1 pi2]. repeat split; lra.
Qed.

Lemma valid_on_step (data : list nat) (s : MixtureState) :
  data <> [] -> valid_on data s -> valid_on data (em_step data s).
Proof.
  intros Hne (Hpos & _ & _ & _).
  pose proof (positive_on_r data s Hpos) as Hr.
  rewrite em_step_reference by (apply positive_on_nonzero, Hpos).
  split; [apply positive_on_step; assumption|].
  assert (Hmean : forall w : nat -> R, (forall x, In x data -> 0 < w x) ->
            0 <= Reference.sum_over data (fun x => w x * INR x)
                 / Reference.sum_over data w).
  { intros w Hw. apply Rmult_le_pos.
    - apply sum_over_nonneg. intros x Hx.
      apply Rmult_le_pos; [apply Rlt_le, Hw, Hx | apply pos_INR].
    - apply Rlt_le, Rinv_0_lt_compat, sum_over_pos; assumption. }
  unfold Reference.step. cbn [mu1 mu2 pi1 pi2].
  split; [apply Hmean; intros x Hx; apply Hr, Hx|].
  split; [apply Hmean; intros x Hx; apply Hr, Hx|]. ring.
Qed.

Lemma valid_on_state_at (s0 : MixtureState) (data : list nat) (k : nat) :
  data <> [] -> valid_on data s0 -> valid_on data (state_at s0 data k).
Proof.
  intros Hne H0. induction k as [|k IH]; [exact H0|].
  rewrite state_at_S. apply valid_on_step; assumption.
Qed.

(** ** Exceptions *)

Lemma outcome_eta (o : Outcome) : o = mkOutcome (returned o) (printed o).
Proof. destruct o. reflexivity. Qed.

(** X1.  The index [log_likelihoods[-2]] is never out of range in a call:
    whatever the sample, the tolerance and the cap, [em_algorithm] returns a
    value and raises nothing.  The guard [iteration > 0] is what makes this
    so: the same loop body entered at a later iteration with an empty list
    raises IndexError. *)
Theorem em_algorithm_never_raises (data : list nat) (tol : R) (max_iter : nat) :
  (exists (s : MixtureState) (log_likelihoods : list R),
     returned (em_algorithm data tol max_iter) = inr (s, log_likelihoods)) /\
  (forall (rem it : nat) (s : MixtureState) (out : list string),
     returned (em_loop data tol (S rem) (S it) s [] out) = inl IndexError).
Proof.
  split.
  - destruct (em_from_run initialize_parameters data tol max_iter)
      as (n & _ & _ & _ & Hret & _).
    eexists _, _. exact Hret.
  - intros rem it s out. reflexivity.
Qed.

(** ** Tolerance and cap *)

(** X2.  With a tolerance that is zero or negative the convergence test can
    never succeed: the loop runs all [max_iter] iterations and prints
    nothing. *)
Theorem nonpositive_tolerance_runs_to_cap (data : list nat) (tol : R)
    (max_iter : nat) :
  tol <= 0 ->
  em_algorithm data tol max_iter
  = mkOutcome (inr (state_at initialize_parameters data max_iter,
                    trace initialize_parameters data max_iter)) [].
Proof.
  intros Htol. unfold em_algorithm.
  destruct (em_from_run initialize_parameters data tol max_iter)
    as (n & _ & _ & _ & Hret & _ & [[[_ Hclose] _] | (-> & _ & Hp)]).
  - pose proof (Rabs_pos (ll_at initialize_parameters data (n - 1)
                          - ll_at initialize_parameters data (n - 1 - 1))). lra.
  - rewrite (outcome_eta (em_from _ _ _ _)), Hret, Hp. reflexivity.
Qed.

Lemma nonpositive_tolerance_runs_to_cap_witness :
  0 <= 0 /\
  em_algorithm [3%nat; 1%nat] 0 5
  = mkOutcome (inr (state_at initialize_parameters [3%nat; 1%nat] 5,
                    trace initialize_parameters [3%nat; 1%nat] 5)) [].
Proof.
  split; [lra|]. apply (nonpositive_tolerance_runs_to_cap [3%nat; 1%nat] 0 5). lra.
Defined.

Lemma stops_at_mono (s0 : MixtureState) (data : list nat) (tol tol' : R) (k : nat) :
  tol <= tol' -> stops_at s0 data tol k -> stops_at s0 data tol' k.
Proof. intros Hle [Hk Hclose]. split; [exact Hk | lra]. Qed.

Lemma trace_firstn (s0 : MixtureState) (data : list nat) (n' n : nat) :
  (n' <= n)%nat -> firstn n' (trace s0 data n) = trace s0 data n'.
Proof.
  intros Hle. unfold trace. rewrite firstn_map. f_equal.
  replace n with (n' + (n - n'))%nat by lia.
  rewrite seq_app, firstn_app, length_seq, Nat.sub_diag, firstn_O, app_nil_r.
  apply firstn_all2. rewrite length_seq. lia.
Qed.

(** X3.  Loosening the tolerance or lowering the cap can only end the run
    earlier, on the same path: the list of log-likelihoods returned with the
    larger tolerance and the smaller cap is a prefix of the list returned
    with the smaller tolerance and the larger cap. *)
Theorem looser_run_is_prefix (data : list nat) (tol tol' : R)
    (max_iter max_iter' : nat) :
  tol <= tol' -> (max_iter' <= max_iter)%nat ->
  exists (s s' : MixtureState) (lls lls' : list R),
    returned (em_algorithm data tol max_iter) = inr (s, lls) /\
    returned (em_algorithm data tol' max_iter') = inr (s', lls') /\
    (length lls' <= length lls)%nat /\
    firstn (length lls') lls = lls'.
Proof.
  intros Htol Hcap. unfold em_algorithm.
  destruct (em_from_run initialize_parameters data tol max_iter)
    as (n & Hle & _ & _ & Hret & Hmin & Hend).
  destruct (em_from_run initialize_parameters data tol' max_iter')
    as (n' & Hle' & _ & _ & Hret' & Hmin' & Hend').
  assert (Hnn : (n' <= n)%nat).
  { destruct (Nat.le_gt_cases n' n) as [H|H]; [exact H|]. exfalso.
    destruct Hend as [[Hs _] | (-> & _)]; [|lia].
    assert (0 < n - 1)%nat by apply Hs.
    apply (Hmin' (n - 1)%nat); [lia|].
    eapply stops_at_mono; eassumption. }
  eexists _, _, _, _. split; [exact Hret|]. split; [exact Hret'|].
  rewrite !trace_length. split; [exact Hnn | apply trace_firstn, Hnn].
Qed.

Lemma looser_run_is_prefix_witness :
  default_tol <= 0.5 /\ (3 <= default_max_iter)%nat /\
  exists (s s' : MixtureState) (lls lls' : list R),
    returned (em_algorithm [3%nat; 1%nat] default_tol default_max_iter) = inr (s, lls) /\
    returned (em_algorithm [3%nat; 1%nat] 0.5 3) = inr (s', lls') /\
    (length lls' <= length lls)%nat /\
    firstn (length lls') lls = lls'.
Proof.
  assert (Htol : default_tol <= 0.5) by (unfold default_tol; lra).
  assert (Hcap : (3 <= default_max_iter)%nat) by (unfold default_max_iter; lia).
  split; [exact Htol|]. split; [exact Hcap|].
  exact (looser_run_is_prefix [3%nat; 1%nat] default_tol 0.5 default_max_iter 3
           Htol Hcap).
Defined.

(** ** The printed line *)

Lemma string_length_append (a b : string) :
  String.length (a ++ b) = (String.length a + String.length b)%nat.
Proof. induction a as [|c a IH]; cbn; [reflexivity | rewrite IH; reflexivity]. Qed.

Lemma string_append_inj_r (t a b : string) :
  (a ++ t)%string = (b ++ t)%string -> a = b.
Proof.
  revert b. induction a as [|c a IH]; intros [|d b] H; cbn in H.
  - reflexivity.
  - apply (f_equal String.length) in H. cbn in H.
    rewrite string_length_append in H. lia.
  - apply (f_equal String.length) in H. cbn in H.
    rewrite string_length_append in H. lia.
  - injection H as -> H. f_equal. apply IH, H.
Qed.

Lemma show_nat_inj (j k : nat) : show_nat j = show_nat k -> j = k.
Proof.
  unfold show_nat. intros H. apply Unsigned.to_uint_inj.
  pose proof (NilEmpty.usu (Nat.to_uint j)) as Hj.
  rewrite H, NilEmpty.usu in Hj. congruence.
Qed.

Lemma converged_message_inj (j k : nat) :
  converged_message j = converged_message k -> j = k.
Proof.
  unfold converged_message. intros H.
  apply show_nat_inj, (string_append_inj_r " iterations.").
  cbn [String.append] in H. repeat injection H as H. exact H.
Qed.

(** X4.  The number in the printed line is the index of the last iteration,
    one less than the number of iterations completed: when
    "Converged after k iterations." is printed, [k + 1] log-likelihoods are
    returned, with [1 <= k < max_iter], and nothing else is printed. *)
Theorem converged_message_counts_from_zero (data : list nat) (tol : R)
    (max_iter k : nat) :
  In (converged_message k) (printed (em_algorithm data tol max_iter)) ->
  (1 <= k < max_iter)%nat /\
  printed (em_algorithm data tol max_iter) = [converged_message k] /\
  exists (s : MixtureState) (log_likelihoods : list R),
    returned (em_algorithm data tol max_iter) = inr (s, log_likelihoods) /\
    length log_likelihoods = S k.
Proof.
  unfold em_algorithm.
  destruct (em_from_run initialize_parameters data tol max_iter)
    as (n & Hle & _ & _ & Hret & _ & [[[Hpos _] Hp] | (_ & _ & Hp)]);
    rewrite Hp; intros Hin; [|destruct Hin].
  destruct Hin as [Heq | []]. apply converged_message_inj in Heq. subst k.
  split; [lia|]. split; [reflexivity|].
  eexists _, _. split; [exact Hret|]. rewrite trace_length. lia.
Qed.

Lemma em_algorithm_single_zero_default :
  em_algorithm [0%nat] default_tol default_max_iter
  = mkOutcome (inr (state_at initialize_parameters [0%nat] 3,
                    trace initialize_parameters [0%nat] 3))
              [converged_message 2].
Proof.
  pose proof first_gap_single_zero as Hgap.
  unfold em_algorithm. apply em_from_converges_third.
  - unfold default_max_iter. lia.
  - unfold default_tol. lra.
  - rewrite !ll_at_single_zero, Rminus_diag, Rabs_R0. unfold default_tol. lra.
Qed.

Lemma converged_message_counts_from_zero_witness :
  In (converged_message 2)
     (printed (em_algorithm [0%nat] default_tol default_max_iter)) /\
  (1 <= 2 < default_max_iter)%nat /\
  printed (em_algorithm [0%nat] default_tol default_max_iter) = [converged_message 2] /\
  exists (s : MixtureState) (log_likelihoods : list R),
    returned (em_algorithm [0%nat] default_tol default_max_iter)
    = inr (s, log_likelihoods) /\
    length log_likelihoods = 3%nat.
Proof.
  assert (Hin : In (converged_message 2)
                   (printed (em_algorithm [0%nat] default_tol default_max_iter)))
    by (rewrite em_algorithm_single_zero_default; left; reflexivity).
  split; [exact Hin|].
  exact (converged_message_counts_from_zero [0%nat] default_tol default_max_iter 2 Hin).
Defined.

(** ** No division by zero on a non-empty sample *)

Lemma Forall_map_In (P : R -> Prop) (f : nat -> R) (l : list nat) :
  (forall x, In x l -> P (f x)) -> Forall P (map f l).
Proof.
  intros H. apply Forall_forall. intros y Hy.
  apply in_map_iff in Hy. destruct Hy as (x & <- & Hx). apply H, Hx.
Qed.

(** X5.  On a non-empty sample every divisor met in any iteration of a run
    of [em_algorithm] is positive: each entry of [total_responsibility],
    [np.sum(r1)], [np.sum(r2)] and the sample size of [np.mean]; and every
    normalised responsibility lies strictly between 0 and 1. *)
Theorem divisors_positive (data : list nat) (k : nat) :
  data <> [] ->
  let e := e_step data (state_at initialize_parameters data k) in
  Forall (fun t => 0 < t) (total_responsibility e) /\
  0 < Np.sum (r1 e) /\
  0 < Np.sum (r2 e) /\
  0 < INR (length (r1 e)) /\
  Forall (fun r => 0 < r < 1) (r1 e) /\
  Forall (fun r => 0 < r < 1) (r2 e).
Proof.
  intros Hne e. subst e.
  pose proof (positive_on_state_at data k Hne) as Hpos.
  pose proof (positive_on_u _ _ Hpos) as Hu.
  pose proof (positive_on_r _ _ Hpos) as Hr.
  rewrite total_responsibility_reference, r1_reference,
    (r2_reference _ _ (positive_on_nonzero _ _ Hpos)), !sum_map, length_map.
  split; [apply Forall_map_In; intros x Hx; destruct (Hu x Hx); lra|].
  split; [apply sum_over_pos; [exact Hne | intros x Hx; apply Hr, Hx]|].
  split; [apply sum_over_pos; [exact Hne | intros x Hx; apply Hr, Hx]|].
  split; [apply length_pos_INR, Hne|].
  split; apply Forall_map_In; intros x Hx; apply Hr, Hx.
Qed.

Lemma divisors_positive_witness :
  [2%nat; 0%nat; 7%nat] <> [] /\
  let e := e_step [2%nat; 0%nat; 7%nat]
             (state_at initialize_parameters [2%nat; 0%nat; 7%nat] 4) in
  Forall (fun t => 0 < t) (total_responsibility e) /\
  0 < Np.sum (r1 e) /\
  0 < Np.sum (r2 e) /\
  0 < INR (length (r1 e)) /\
  Forall (fun r => 0 < r < 1) (r1 e) /\
  Forall (fun r => 0 < r < 1) (r2 e).
Proof.
  split; [discriminate|].
  apply (divisors_positive [2%nat; 0%nat; 7%nat] 4). discriminate.
Defined.

(** ** The parameters returned *)

Lemma valid_state_at (data : list nat) (k : nat) :
  data <> [] -> valid_on data (state_at initialize_parameters data k).
Proof. intros Hne. apply valid_on_state_at; [exact Hne | apply valid_on_initial]. Qed.

(** X6.  Under real arithmetic (no rounding, overflow or underflow), on a
    non-empty sample the parameters [em_algorithm] returns are those of a
    mixture: both proportions lie strictly between 0 and 1 and
    sum to one, and both means are non-negative; when the sample holds a
    positive count both means are positive. *)
Theorem returned_parameters_are_a_mixture (data : list nat) (tol : R)
    (max_iter : nat) :
  data <> [] ->
  exists (s : MixtureState) (log_likelihoods : list R),
    returned (em_algorithm data tol max_iter) = inr (s, log_likelihoods) /\
    0 < pi1 s < 1 /\ 0 < pi2 s < 1 /\ pi1 s + pi2 s = 1 /\
    0 <= mu1 s /\ 0 <= mu2 s /\
    ((exists x, In x data /\ (0 < x)%nat) -> 0 < mu1 s /\ 0 < mu2 s).
Proof.
  intros Hne. unfold em_algorithm.
  destruct (em_from_run initialize_parameters data tol max_iter)
    as (n & _ & _ & _ & Hret & _).
  eexists _, _. split; [exact Hret|].
  destruct (valid_state_at data n Hne) as ((Hp1 & Hp2 & Hpow) & Hm1 & Hm2 & Hsum).
  repeat (split; [lra|]).
  intros (x & Hx & Hxpos). destruct (Hpow x Hx) as [Hpow1 Hpow2].
  destruct x as [|x']; [lia|].
  split.
  - destruct Hm1 as [Hlt | Heq]; [exact Hlt|].
    rewrite <- Heq in Hpow1. rewrite pow_i in Hpow1 by lia. lra.
  - destruct Hm2 as [Hlt | Heq]; [exact Hlt|].
    rewrite <- Heq in Hpow2. rewrite pow_i in Hpow2 by lia. lra.
Qed.

Lemma returned_parameters_are_a_mixture_witness :
  [2%nat; 0%nat; 7%nat] <> [] /\
  exists (s : MixtureState) (log_likelihoods : list R),
    returned (em_algorithm [2%nat; 0%nat; 7%nat] default_tol default_max_iter)
    = inr (s, log_likelihoods) /\
    0 < pi1 s < 1 /\ 0 < pi2 s < 1 /\ pi1 s + pi2 s = 1 /\
    0 <= mu1 s /\ 0 <= mu2 s /\
    ((exists x, In x [2%nat; 0%nat; 7%nat] /\ (0 < x)%nat) -> 0 < mu1 s /\ 0 < mu2 s).
Proof.
  split; [discriminate|].
  apply (returned_parameters_are_a_mixture [2%nat; 0%nat; 7%nat]
           default_tol default_max_iter).
  discriminate.
Defined.

(** ** Means as weighted averages of the sample *)

Lemma weighted_mean_in_range (w : nat -> R) (data : list nat) (lo hi : nat) :
  data <> [] ->
  (forall x, In x data -> 0 < w x) ->
  (forall x, In x data -> (lo <= x <= hi)%nat) ->
  INR lo <= Reference.sum_over data (fun x => w x * INR x) / Reference.sum_over data w
         <= INR hi.
Proof.
  intros Hne Hw Hrange.
  assert (HS : 0 < Reference.sum_over data w) by (apply sum_over_pos; assumption).
  assert (Hlo : INR lo * Reference.sum_over data w
                <= Reference.sum_over data (fun x => w x * INR x)).
  { rewrite <- sum_over_scal. apply sum_over_le. intros x Hx.
    assert (INR lo <= INR x) by (apply le_INR, Hrange, Hx).
    specialize (Hw x Hx). nra. }
  assert (Hhi : Reference.sum_over data (fun x => w x * INR x)
                <= INR hi * Reference.sum_over data w).
  { rewrite <- sum_over_scal. apply sum_over_le. intros x Hx.
    assert (INR x <= INR hi) by (apply le_INR, Hrange, Hx).
    specialize (Hw x Hx). nra. }
  pose proof (Rinv_0_lt_compat _ HS) as Hinv.
  assert (Hone : Reference.sum_over data w * / Reference.sum_over data w = 1)
    by (apply Rinv_r; lra).
  revert Hlo Hhi Hinv Hone. unfold Rdiv.
  generalize (Reference.sum_over data (fun x => w x * INR x)) as A.
  generalize (/ Reference.sum_over data w) as i.
  generalize (Reference.sum_over data w) as S.
  intros S i A Hlo Hhi Hinv Hone.
  assert (0 <= (A - INR lo * S) * i) by (apply Rmult_le_pos; lra).
  assert (0 <= (INR hi * S - A) * i) by (apply Rmult_le_pos; lra).
  replace (A * i) with ((A - INR lo * S) * i + INR lo * (S * i)) at 1 by ring.
  replace (A * i) with (INR hi * (S * i) - (INR hi * S - A) * i) by ring.
  rewrite Hone. lra.
Qed.

Lemma step_means_in_range (data : list nat) (s : MixtureState) (lo hi : nat) :
  data <> [] -> positive_on data s ->
  (forall x, In x data -> (lo <= x <= hi)%nat) ->
  INR lo <= mu1 (em_step data s) <= INR hi /\
  INR lo <= mu2 (em_step data s) <= INR hi.
Proof.
  intros Hne Hpos Hrange. pose proof (positive_on_r data s Hpos) as Hr.
  rewrite em_step_reference by (apply positive_on_nonzero, Hpos).
  unfold Reference.step. cbn [mu1 mu2].
  split; apply weighted_mean_in_range; try assumption; intros x Hx; apply Hr, Hx.
Qed.

(** X7.  Under real arithmetic each mean returned is a weighted average of
    the sample: after at
    least one iteration on a non-empty sample, both means lie between the
    smallest and the largest count of the sample. *)
Theorem returned_means_within_sample_range (data : list nat) (tol : R)
    (max_iter lo hi : nat) :
  data <> [] -> (0 < max_iter)%nat ->
  (forall x, In x data -> (lo <= x <= hi)%nat) ->
  exists (s : MixtureState) (log_likelihoods : list R),
    returned (em_algorithm data tol max_iter) = inr (s, log_likelihoods) /\
    INR lo <= mu1 s <= INR hi /\ INR lo <= mu2 s <= INR hi.
Proof.
  intros Hne Hcap Hrange. unfold em_algorithm.
  destruct (em_from_run initialize_parameters data tol max_iter)
    as (n & _ & Hge1 & _ & Hret & _).
  specialize (Hge1 Hcap). eexists _, _. split; [exact Hret|].
  destruct n as [|m]; [lia|]. rewrite state_at_S.
  apply step_means_in_range; try assumption.
  apply positive_on_state_at, Hne.
Qed.

Lemma returned_means_within_sample_range_witness :
  [2%nat; 0%nat; 7%nat] <> [] /\ (0 < default_max_iter)%nat /\
  (forall x, In x [2%nat; 0%nat; 7%nat] -> (0 <= x <= 7)%nat) /\
  exists (s : MixtureState) (log_likelihoods : list R),
    returned (em_algorithm [2%nat; 0%nat; 7%nat] default_tol default_max_iter)
    = inr (s, log_likelihoods) /\
    INR 0 <= mu1 s <= INR 7 /\ INR 0 <= mu2 s <= INR 7.
Proof.
  assert (Hne : [2%nat; 0%nat; 7%nat] <> []) by discriminate.
  assert (Hcap : (0 < default_max_iter)%nat) by (unfold default_max_iter; lia).
  assert (Hrange : forall x, In x [2%nat; 0%nat; 7%nat] -> (0 <= x <= 7)%nat)
    by (intros x [<- | [<- | [<- | []]]]; lia).
  split; [exact Hne|]. split; [exact Hcap|]. split; [exact Hrange|].
  exact (returned_means_within_sample_range [2%nat; 0%nat; 7%nat] default_tol
           default_max_iter 0 7 Hne Hcap Hrange).
Defined.

(** ** The mean of the fitted mixture *)

Lemma step_mixture_mean (data : list nat) (s : MixtureState) :
  data <> [] -> positive_on data s ->
  mixture_mean (em_step data s) = Np.mean (map INR data).
Proof.
  intros Hne Hpos. pose proof (positive_on_r data s Hpos) as Hr.
  rewrite em_step_reference by (apply positive_on_nonzero, Hpos).
  assert (HS1 : 0 < Reference.sum_over data (Reference.r1 s))
    by (apply sum_over_pos; [exact Hne | intros x Hx; apply Hr, Hx]).
  assert (HS2 : 0 < Reference.sum_over data (Reference.r2 s))
    by (apply sum_over_pos; [exact Hne | intros x Hx; apply Hr, Hx]).
  pose proof (sum_over_r1_r2 data s) as Hn.
  assert (HA : Reference.sum_over data (fun x => Reference.r1 s x * INR x)
               + Reference.sum_over data (fun x => Reference.r2 s x * INR x)
               = Reference.sum_over data INR).
  { rewrite <- sum_over_plus. apply sum_over_ext. intros x _.
    unfold Reference.r2. ring. }
  unfold Np.mean. rewrite sum_map, length_map, <- HA, <- Hn.
  unfold mixture_mean, Reference.step. cbn [mu1 mu2 pi1 pi2].
  rewrite <- Hn. field. lra.
Qed.

(** X8.  Under real arithmetic every M-step matches the first moment of the
    sample: after at
    least one iteration on a non-empty sample, the mean of the returned
    mixture, [pi1 * mu1 + pi2 * mu2], is the mean of the sample. *)
Theorem returned_mixture_mean_is_sample_mean (data : list nat) (tol : R)
    (max_iter : nat) :
  data <> [] -> (0 < max_iter)%nat ->
  exists (s : MixtureState) (log_likelihoods : list R),
    returned (em_algorithm data tol max_iter) = inr (s, log_likelihoods) /\
    mixture_mean s = Np.mean (map INR data).
Proof.
  intros Hne Hcap. unfold em_algorithm.
  destruct (em_from_run initialize_parameters data tol max_iter)
    as (n & _ & Hge1 & _ & Hret & _).
  specialize (Hge1 Hcap). eexists _, _. split; [exact Hret|].
  destruct n as [|m]; [lia|]. rewrite state_at_S.
  apply step_mixture_mean; [exact Hne | apply positive_on_state_at, Hne].
Qed.

Lemma returned_mixture_mean_is_sample_mean_witness :
  [2%nat; 0%nat; 7%nat] <> [] /\ (0 < default_max_iter)%nat /\
  exists (s : MixtureState) (log_likelihoods : list R),
    returned (em_algorithm [2%nat; 0%nat; 7%nat] default_tol default_max_iter)
    = inr (s, log_likelihoods) /\
    mixture_mean s = Np.mean (map INR [2%nat; 0%nat; 7%nat]).
Proof.
  assert (Hne : [2%nat; 0%nat; 7%nat] <> []) by discriminate.
  assert (Hcap : (0 < default_max_iter)%nat) by (unfold default_max_iter; lia).
  split; [exact Hne|]. split; [exact Hcap|].
  exact (returned_mixture_mean_is_sample_mean [2%nat; 0%nat; 7%nat] default_tol
           default_max_iter Hne Hcap).
Defined.

(** ** The log-likelihood never decreases *)

Lemma ln_div (a b : R) : 0 < a -> 0 < b -> ln (a / b) = ln a - ln b.
Proof.
  intros Ha Hb. unfold Rdiv.
  rewrite ln_mult by (try apply Rinv_0_lt_compat; assumption).
  rewrite ln_Rinv by assumption. ring.
Qed.

Lemma ln_le_minus_1 (t : R) : 0 < t -> ln t <= t - 1.
Proof.
  intros Ht. pose proof (exp_ineq1_le (ln t)) as H.
  rewrite exp_ln in H by exact Ht. lra.
Qed.

Lemma ln_ratio_bound (y z : R) : 0 < y -> 0 < z -> 1 - z / y <= ln y - ln z.
Proof.
  intros Hy Hz.
  assert (Hzy : 0 < z / y) by (apply Rdiv_lt_0_compat; assumption).
  pose proof (ln_le_minus_1 (z / y) Hzy) as H.
  rewrite ln_div in H by assumption. lra.
Qed.

(** Concavity of the logarithm on two points. *)
Lemma ln_concave_two (a b s t : R) :
  0 < a -> 0 < b -> a + b = 1 -> 0 < s -> 0 < t ->
  a * ln s + b * ln t <= ln (a * s + b * t).
Proof.
  intros Ha Hb Hab Hs Ht.
  assert (Has : 0 < a * s) by (apply Rmult_lt_0_compat; assumption).
  assert (Hbt : 0 < b * t) by (apply Rmult_lt_0_compat; assumption).
  set (m := a * s + b * t) in *.
  assert (Hm : 0 < m) by (unfold m; lra).
  pose proof (ln_ratio_bound m s Hm Hs) as H1.
  pose proof (ln_ratio_bound m t Hm Ht) as H2.
  assert (Ha1 : a * (1 - s / m) <= a * (ln m - ln s))
    by (apply Rmult_le_compat_l; lra).
  assert (Hb1 : b * (1 - t / m) <= b * (ln m - ln t))
    by (apply Rmult_le_compat_l; lra).
  assert (Hz : a * (1 - s / m) + b * (1 - t / m) = 0).
  { replace (a * (1 - s / m) + b * (1 - t / m))
      with ((a + b) - (a * s + b * t) / m) by (field; lra).
    fold m. rewrite Hab. field. lra. }
  replace (ln m) with ((a + b) * ln m) by (rewrite Hab; ring).
  lra.
Qed.

(** One point of the sample: the gain in [ln (u1 + u2)] is at least the
    responsibility-weighted gain of the two terms. *)
Lemma pointwise_gain (u1 u2 v1 v2 : R) :
  0 < u1 -> 0 < u2 -> 0 < v1 -> 0 < v2 ->
  u1 / (u1 + u2) * (ln v1 - ln u1) + (1 - u1 / (u1 + u2)) * (ln v2 - ln u2)
  <= ln (v1 + v2) - ln (u1 + u2).
Proof.
  intros Hu1 Hu2 Hv1 Hv2.
  assert (HT : 0 < u1 + u2) by lra.
  assert (Ha : 0 < u1 / (u1 + u2)) by (apply Rdiv_lt_0_compat; assumption).
  assert (Hb : 0 < 1 - u1 / (u1 + u2)).
  { replace (1 - u1 / (u1 + u2)) with (u2 / (u1 + u2)) by (field; lra).
    apply Rdiv_lt_0_compat; assumption. }
  pose proof (ln_concave_two (u1 / (u1 + u2)) (1 - u1 / (u1 + u2))
                (v1 / u1) (v2 / u2) Ha Hb ltac:(ring)
                ltac:(apply Rdiv_lt_0_compat; assumption)
                ltac:(apply Rdiv_lt_0_compat; assumption)) as H.
  replace (u1 / (u1 + u2) * (v1 / u1) + (1 - u1 / (u1 + u2)) * (v2 / u2))
    with ((v1 + v2) / (u1 + u2)) in H by (field; lra).
  rewrite !ln_div in H by lra. exact H.
Qed.

Lemma ln_weighted_pmf (pi mu : R) (x : nat) :
  0 < pi -> 0 < mu ->
  ln (pi * Reference.poisson_pmf x mu)
  = ln pi - mu + INR x * ln mu - ln (INR (fact x)).
Proof.
  intros Hpi Hmu. unfold Reference.poisson_pmf.
  assert (Hpow : 0 < mu ^ x) by (apply pow_lt; exact Hmu).
  pose proof (exp_pos (- mu)) as Hexp.
  pose proof (INR_fact_lt_0 x) as Hfact.
  rewrite ln_mult, ln_div, ln_mult, ln_exp, ln_pow; try assumption.
  - ring.
  - apply Rmult_lt_0_compat; assumption.
  - apply Rdiv_lt_0_compat; [apply Rmult_lt_0_compat|]; assumption.
Qed.

(** The gain of one term, bounded below by an expression linear in [x]. *)
Lemma term_gain (pi pi' mu mu' : R) (x : nat) :
  0 < pi -> 0 < pi' -> 0 < mu -> 0 < mu' ->
  (1 - pi / pi' + mu - mu') + (1 - mu / mu') * INR x
  <= ln (pi' * Reference.poisson_pmf x mu') - ln (pi * Reference.poisson_pmf x mu).
Proof.
  intros Hpi Hpi' Hmu Hmu'. rewrite !ln_weighted_pmf by assumption.
  pose proof (ln_ratio_bound pi' pi Hpi' Hpi) as H1.
  pose proof (ln_ratio_bound mu' mu Hmu' Hmu) as H2.
  pose proof (pos_INR x) as Hx.
  assert ((1 - mu / mu') * INR x <= (ln mu' - ln mu) * INR x)
    by (apply Rmult_le_compat_r; assumption).
  lra.
Qed.

Lemma all_zero_or_positive (data : list nat) :
  (forall x, In x data -> x = 0%nat) \/ (exists x, In x data /\ (0 < x)%nat).
Proof.
  induction data as [|y data [IH | (x & Hx & Hpos)]].
  - left. intros x [].
  - destruct y as [|y'].
    + left. intros x [<- | Hx]; [reflexivity | apply IH, Hx].
    + right. exists (S y'). split; [left; reflexivity | lia].
  - right. exists x. split; [right; exact Hx | exact Hpos].
Qed.

Lemma valid_on_means_pos (data : list nat) (s : MixtureState) :
  valid_on data s -> (exists x, In x data /\ (0 < x)%nat) ->
  0 < mu1 s /\ 0 < mu2 s.
Proof.
  intros ((_ & _ & Hpow) & Hm1 & Hm2 & _) (x & Hx & Hxpos).
  destruct (Hpow x Hx) as [Hpow1 Hpow2]. destruct x as [|x']; [lia|].
  split.
  - destruct Hm1 as [Hlt | Heq]; [exact Hlt|].
    rewrite <- Heq in Hpow1. rewrite pow_i in Hpow1 by lia. lra.
  - destruct Hm2 as [Hlt | Heq]; [exact Hlt|].
    rewrite <- Heq in Hpow2. rewrite pow_i in Hpow2 by lia. lra.
Qed.

Lemma exp_opp_le_1 (mu : R) : 0 <= mu -> exp (- mu) <= 1.
Proof.
  intros Hmu. destruct Hmu as [Hlt | <-].
  - rewrite <- exp_0. left. apply exp_increasing. lra.
  - rewrite Ropp_0, exp_0. lra.
Qed.

(** The terms linear in [x] of the lower bound cancel over the sample. *)
Lemma em_gain_identity (n S1 S2 A1 A2 p1 p2 m1 m2 : R) :
  0 < S1 -> 0 < S2 -> 0 < A1 -> 0 < A2 -> S1 + S2 = n -> p1 + p2 = 1 ->
  (1 - p1 / (S1 / n) + m1 - A1 / S1) * S1 + (1 - m1 / (A1 / S1)) * A1
  + ((1 - p2 / (1 - S1 / n) + m2 - A2 / S2) * S2 + (1 - m2 / (A2 / S2)) * A2)
  = 0.
Proof.
  intros HS1 HS2 HA1 HA2 <- Hp.
  replace p2 with (1 - p1) by lra.
  replace (1 - S1 / (S1 + S2)) with (S2 / (S1 + S2)) by (field; lra).
  field. repeat split; lra.
Qed.

(** One pass of EM does not lower the log-likelihood. *)
Lemma log_likelihood_step (data : list nat) (s : MixtureState) :
  data <> [] -> valid_on data s ->
  Reference.log_likelihood data s
  <= Reference.log_likelihood data (Reference.step data s).
Proof.
  intros Hne Hvalid.
  pose proof (valid_on_step data s Hne Hvalid) as Hvalid'.
  destruct Hvalid as (Hpos & Hm1 & Hm2 & Hsum).
  rewrite em_step_reference in Hvalid' by (apply positive_on_nonzero, Hpos).
  pose proof (positive_on_u data s Hpos) as Hu.
  pose proof (positive_on_r data s Hpos) as Hr.
  pose proof (positive_on_u data _ (proj1 Hvalid')) as Hu'.
  unfold Reference.log_likelihood.
  destruct (all_zero_or_positive data) as [Hzero | Hex].
  - (* every count is zero *)
    destruct (step_means_in_range data s 0 0 Hne Hpos) as [Hmu1 Hmu2].
    { intros x Hx. rewrite (Hzero x Hx). lia. }
    rewrite em_step_reference in Hmu1, Hmu2 by (apply positive_on_nonzero, Hpos).
    cbn [INR] in Hmu1, Hmu2.
    destruct Hvalid' as (_ & _ & _ & Hsum').
    apply sum_over_le. intros x Hx. rewrite (Hzero x Hx).
    specialize (Hu 0%nat). rewrite (Hzero x Hx) in Hx. specialize (Hu Hx).
    rewrite !u1_at_zero, !u2_at_zero in *.
    replace (mu1 (Reference.step data s)) with 0 by lra.
    replace (mu2 (Reference.step data s)) with 0 by lra.
    rewrite Ropp_0, exp_0, !Rmult_1_r, Hsum', ln_1.
    pose proof (exp_opp_le_1 _ Hm1). pose proof (exp_opp_le_1 _ Hm2).
    destruct Hpos as (Hp1 & Hp2 & _).
    assert (pi1 s * exp (- mu1 s) + pi2 s * exp (- mu2 s) <= 1) by nra.
    pose proof (ln_le_minus_1 (pi1 s * exp (- mu1 s) + pi2 s * exp (- mu2 s))
                  ltac:(lra)).
    lra.
  - (* some count is positive: all four means are positive *)
    destruct (valid_on_means_pos data s
                (conj Hpos (conj Hm1 (conj Hm2 Hsum))) Hex) as [Hmu1 Hmu2].
    destruct (valid_on_means_pos data _ Hvalid' Hex) as [Hmu1' Hmu2'].
    destruct Hvalid' as ((Hp1' & Hp2' & _) & _).
    destruct Hpos as (Hp1 & Hp2 & _).
    set (s' := Reference.step data s) in *.
    set (c1 := 1 - pi1 s / pi1 s' + mu1 s - mu1 s').
    set (d1 := 1 - mu1 s / mu1 s').
    set (c2 := 1 - pi2 s / pi2 s' + mu2 s - mu2 s').
    set (d2 := 1 - mu2 s / mu2 s').
    assert (Hpoint : forall x, In x data ->
              Reference.r1 s x * (c1 + d1 * INR x)
              + Reference.r2 s x * (c2 + d2 * INR x)
              <= ln (Reference.u1 s' x + Reference.u2 s' x)
                 - ln (Reference.u1 s x + Reference.u2 s x)).
    { intros x Hx. destruct (Hu x Hx) as [Hu1 Hu2]. destruct (Hu' x Hx) as [Hv1 Hv2].
      destruct (Hr x Hx) as [Hr1 Hr2].
      pose proof (pointwise_gain _ _ _ _ Hu1 Hu2 Hv1 Hv2) as Hgain.
      pose proof (term_gain (pi1 s) (pi1 s') (mu1 s) (mu1 s') x Hp1 Hp1' Hmu1 Hmu1')
        as Hg1.
      pose proof (term_gain (pi2 s) (pi2 s') (mu2 s) (mu2 s') x Hp2 Hp2' Hmu2 Hmu2')
        as Hg2.
      fold (Reference.u1 s' x) (Reference.u1 s x) in Hg1.
      fold (Reference.u2 s' x) (Reference.u2 s x) in Hg2.
      fold (Reference.r1 s x) in Hgain. fold (Reference.r2 s x) in Hgain.
      fold c1 d1 in Hg1. fold c2 d2 in Hg2.
      assert (Reference.r1 s x * (c1 + d1 * INR x)
              <= Reference.r1 s x
                 * (ln (Reference.u1 s' x) - ln (Reference.u1 s x)))
        by (apply Rmult_le_compat_l; lra).
      assert (Reference.r2 s x * (c2 + d2 * INR x)
              <= Reference.r2 s x
                 * (ln (Reference.u2 s' x) - ln (Reference.u2 s x)))
        by (apply Rmult_le_compat_l; lra).
      lra. }
    apply sum_over_le in Hpoint.
    assert (Hzero :
      Reference.sum_over data
        (fun x => Reference.r1 s x * (c1 + d1 * INR x)
                  + Reference.r2 s x * (c2 + d2 * INR x)) = 0).
    { rewrite (sum_over_ext _
        (fun x => (c1 * Reference.r1 s x + d1 * (Reference.r1 s x * INR x))
                  + (c2 * Reference.r2 s x + d2 * (Reference.r2 s x * INR x))))
        by (intros x _; ring).
      rewrite !sum_over_plus, !sum_over_scal.
      assert (HS1 : 0 < Reference.sum_over data (Reference.r1 s))
        by (apply sum_over_pos; [exact Hne | intros x Hx; apply Hr, Hx]).
      assert (HS2 : 0 < Reference.sum_over data (Reference.r2 s))
        by (apply sum_over_pos; [exact Hne | intros x Hx; apply Hr, Hx]).
      assert (HA : forall A S : R, 0 < S -> 0 < A / S -> 0 < A).
      { intros A S HS HAS. replace A with (A / S * S) by (field; lra).
        apply Rmult_lt_0_compat; assumption. }
      subst c1 d1 c2 d2 s'. unfold Reference.step in *. cbn [mu1 mu2 pi1 pi2] in *.
      apply em_gain_identity; try assumption.
      - apply (HA _ (Reference.sum_over data (Reference.r1 s))); assumption.
      - apply (HA _ (Reference.sum_over data (Reference.r2 s))); assumption.
      - apply sum_over_r1_r2. }
    rewrite Hzero in Hpoint.
    rewrite (sum_over_ext _
      (fun x => ln (Reference.u1 s' x + Reference.u2 s' x)
                + (-1) * ln (Reference.u1 s x + Reference.u2 s x))) in Hpoint
      by (intros x _; ring).
    rewrite sum_over_plus, sum_over_scal in Hpoint. lra.
Qed.

Lemma ll_at_step (s0 : MixtureState) (data : list nat) (k : nat) :
  data <> [] -> valid_on data s0 ->
  ll_at s0 data k <= ll_at s0 data (S k).
Proof.
  intros Hne H0. pose proof (valid_on_state_at s0 data k Hne H0) as Hk.
  unfold ll_at. rewrite !log_likelihood_reference, state_at_S.
  rewrite em_step_reference by (apply positive_on_nonzero, Hk).
  apply log_likelihood_step; assumption.
Qed.

(** X9.  Under real arithmetic EM never lowers the log-likelihood: on a
    non-empty sample the list [em_algorithm] returns is non-decreasing, so
    the quantity the convergence test takes the absolute value of is never
    negative. *)
Theorem log_likelihoods_never_decrease (data : list nat) (tol : R)
    (max_iter : nat) :
  data <> [] ->
  exists (s : MixtureState) (log_likelihoods : list R),
    returned (em_algorithm data tol max_iter) = inr (s, log_likelihoods) /\
    forall (i : nat) (a b : R),
      nth_error log_likelihoods i = Some a ->
      nth_error log_likelihoods (S i) = Some b ->
      a <= b.
Proof.
  intros Hne. unfold em_algorithm.
  destruct (em_from_run initialize_parameters data tol max_iter)
    as (n & _ & _ & _ & Hret & _).
  eexists _, _. split; [exact Hret|].
  intros i a b Ha Hb.
  assert (Hi : (S i < n)%nat).
  { rewrite <- (trace_length initialize_parameters data n).
    apply nth_error_Some. congruence. }
  rewrite trace_nth in Ha, Hb by lia.
  injection Ha as <-. injection Hb as <-.
  apply ll_at_step; [exact Hne | apply valid_on_initial].
Qed.

Lemma log_likelihoods_never_decrease_witness :
  [2%nat; 0%nat; 7%nat] <> [] /\
  exists (s : MixtureState) (log_likelihoods : list R),
    returned (em_algorithm [2%nat; 0%nat; 7%nat] default_tol default_max_iter)
    = inr (s, log_likelihoods) /\
    forall (i : nat) (a b : R),
      nth_error log_likelihoods i = Some a ->
      nth_error log_likelihoods (S i) = Some b ->
      a <= b.
Proof.
  split; [discriminate|].
  apply (log_likelihoods_never_decrease [2%nat; 0%nat; 7%nat]
           default_tol default_max_iter).
  discriminate.
Defined.

(** ** The log-likelihood is at most zero *)

(** A term of the exponential series is at most its sum. *)
Lemma exp_series_term (mu : R) (x : nat) : 0 <= mu -> mu ^ x / INR (fact x) <= exp mu.
Proof.
  intros Hmu.
  set (An := fun i : nat => / INR (fact i) * mu ^ i).
  assert (Hpos : forall i, 0 <= An i).
  { intros i. unfold An. apply Rmult_le_pos.
    - apply Rlt_le, Rinv_0_lt_compat, INR_fact_lt_0.
    - apply pow_le, Hmu. }
  assert (Hcv : Un_cv (fun n => sum_f_R0 An n) (exp mu)).
  { unfold exp. destruct (exist_exp mu) as [l Hl]. exact Hl. }
  pose proof (sum_incr An x (exp mu) Hcv Hpos) as Hsum.
  assert (Hterm : An x <= sum_f_R0 An x).
  { destruct x as [|x']; [cbn; lra|].
    cbn [sum_f_R0]. pose proof (cond_pos_sum An x' Hpos). lra. }
  unfold An in Hterm at 1. unfold Rdiv. lra.
Qed.

Lemma poisson_pmf_le_1 (mu : R) (x : nat) : 0 <= mu -> Reference.poisson_pmf x mu <= 1.
Proof.
  intros Hmu. unfold Reference.poisson_pmf.
  pose proof (exp_series_term mu x Hmu) as Hterm.
  pose proof (exp_pos (- mu)) as Hexp.
  assert (Hone : exp (- mu) * exp mu = 1).
  { rewrite <- exp_plus. replace (- mu + mu) with 0 by ring. apply exp_0. }
  unfold Rdiv in *. rewrite Rmult_assoc.
  rewrite <- Hone. apply Rmult_le_compat_l; lra.
Qed.

Lemma log_likelihood_nonpos (data : list nat) (s : MixtureState) :
  valid_on data s -> Reference.log_likelihood data s <= 0.
Proof.
  intros (Hpos & Hm1 & Hm2 & Hsum). pose proof (positive_on_u data s Hpos) as Hu.
  destruct Hpos as (Hp1 & Hp2 & _).
  unfold Reference.log_likelihood.
  replace 0 with (Reference.sum_over data (fun _ => 0))
    by (rewrite sum_over_const; ring).
  apply sum_over_le. intros x Hx. destruct (Hu x Hx) as [Hu1 Hu2].
  pose proof (poisson_pmf_le_1 (mu1 s) x Hm1) as Hq1.
  pose proof (poisson_pmf_le_1 (mu2 s) x Hm2) as Hq2.
  assert (Reference.u1 s x + Reference.u2 s x <= 1)
    by (unfold Reference.u1, Reference.u2; nra).
  pose proof (ln_le_minus_1 (Reference.u1 s x + Reference.u2 s x) ltac:(lra)).
  lra.
Qed.

(** X10.  Under real arithmetic (no overflow to inf) every log-likelihood
    [em_algorithm] returns is at most zero: each
    [u1 x + u2 x] is a probability, a mixture of two Poisson probabilities
    with weights that sum to one. *)
Theorem log_likelihoods_at_most_zero (data : list nat) (tol : R) (max_iter : nat) :
  exists (s : MixtureState) (log_likelihoods : list R),
    returned (em_algorithm data tol max_iter) = inr (s, log_likelihoods) /\
    Forall (fun l => l <= 0) log_likelihoods.
Proof.
  unfold em_algorithm.
  destruct (em_from_run initialize_parameters data tol max_iter)
    as (n & _ & _ & _ & Hret & _).
  eexists _, _. split; [exact Hret|].
  unfold trace. apply Forall_forall. intros l Hl.
  apply in_map_iff in Hl. destruct Hl as (k & <- & _).
  destruct data as [|x data]; [rewrite ll_at_empty; lra|].
  unfold ll_at. rewrite log_likelihood_reference.
  apply log_likelihood_nonpos, valid_state_at. discriminate.
Qed.

(** ** Convergence is reached *)

Lemma ll_at_growth (data : list nat) (tol : R) (m : nat) :
  data <> [] ->
  (forall j, (1 <= j <= m)%nat -> ~ stops_at initialize_parameters data tol j) ->
  ll_at initialize_parameters data 0 + INR m * tol
  <= ll_at initialize_parameters data m.
Proof.
  intros Hne. induction m as [|m IH]; intros Hno; [cbn [INR]; lra|].
  assert (IH' : ll_at initialize_parameters data 0 + INR m * tol
                <= ll_at initialize_parameters data m)
    by (apply IH; intros j Hj; apply Hno; lia).
  pose proof (ll_at_step initialize_parameters data m Hne (valid_on_initial data))
    as Hup.
  assert (Hfar : ~ Rabs (ll_at initialize_parameters data (S m)
                         - ll_at initialize_parameters data m) < tol).
  { intros Hclose. apply (Hno (S m)); [lia|]. split; [lia|].
    replace (S m - 1)%nat with m by lia. exact Hclose. }
  rewrite Rabs_pos_eq in Hfar by lra. rewrite S_INR. lra.
Qed.

(** X11.  Under real arithmetic, on a non-empty sample and with a positive
    tolerance the loop does reach convergence: there is a number [N] of iterations, depending on the
    sample and the tolerance only, such that with any cap of at least [N] the
    run ends on the convergence test, in an iteration below [N].  (The
    log-likelihoods never decrease and never exceed zero, so they cannot keep
    rising by [tol] or more.) *)
Theorem convergence_is_reached (data : list nat) (tol : R) :
  data <> [] -> 0 < tol ->
  exists N : nat, forall max_iter : nat, (N <= max_iter)%nat ->
    exists k : nat,
      (k < N)%nat /\
      printed (em_algorithm data tol max_iter) = [converged_message k].
Proof.
  intros Hne Htol.
  destruct (INR_unbounded (- ll_at initialize_parameters data 0 / tol)) as [m Hm].
  assert (Hbig : - ll_at initialize_parameters data 0 < INR m * tol).
  { apply Rmult_gt_compat_r with (r := tol) in Hm; [|lra].
    unfold Rdiv in Hm. rewrite Rmult_assoc, Rinv_l, Rmult_1_r in Hm by lra. lra. }
  assert (Hcontra :
    (forall j, (1 <= j <= m)%nat -> ~ stops_at initialize_parameters data tol j) ->
    False).
  { intros Hno. pose proof (ll_at_growth data tol m Hne Hno) as Hgrow.
    assert (ll_at initialize_parameters data m <= 0).
    { unfold ll_at. rewrite log_likelihood_reference.
      apply log_likelihood_nonpos, valid_state_at, Hne. }
    lra. }
  exists (S m). intros max_iter Hcap. unfold em_algorithm.
  destruct (em_from_run initialize_parameters data tol max_iter)
    as (n & Hle & _ & _ & _ & Hmin & [[Hs Hp] | (-> & Hnone & _)]).
  - exists (n - 1)%nat. split; [|exact Hp].
    destruct (Nat.lt_ge_cases (n - 1) (S m)) as [Hlt | Hge]; [exact Hlt|].
    exfalso. apply Hcontra. intros j Hj. apply Hmin. lia.
  - exfalso. apply Hcontra. intros j Hj. apply Hnone. lia.
Qed.

Lemma convergence_is_reached_witness :
  [2%nat; 0%nat; 7%nat] <> [] /\ 0 < default_tol /\
  exists N : nat, forall max_iter : nat, (N <= max_iter)%nat ->
    exists k : nat,
      (k < N)%nat /\
      printed (em_algorithm [2%nat; 0%nat; 7%nat] default_tol max_iter)
      = [converged_message k].
Proof.
  assert (Hne : [2%nat; 0%nat; 7%nat] <> []) by discriminate.
  assert (Htol : 0 < default_tol) by (unfold default_tol; lra).
  split; [exact Hne|]. split; [exact Htol|].
  exact (convergence_is_reached [2%nat; 0%nat; 7%nat] default_tol Hne Htol).
Defined.

(** ** A sample with one repeated value *)

Lemma step_constant_sample (data : list nat) (s : MixtureState) (c : nat) :
  data <> [] -> (forall x, In x data -> x = c) ->
  valid_on data s -> mu1 s = INR c -> mu2 s = INR c ->
  em_step data s = s.
Proof.
  intros Hne Hconst (Hpos & _ & _ & Hsum) Hmu1 Hmu2.
  destruct (step_means_in_range data s c c Hne Hpos) as [Hm1 Hm2].
  { intros x Hx. rewrite (Hconst x Hx). lia. }
  pose proof (positive_on_u data s Hpos) as Hu.
  rewrite em_step_reference in * by (apply positive_on_nonzero, Hpos).
  assert (Hr1 : forall x, In x data -> Reference.r1 s x = pi1 s).
  { intros x Hx. destruct (Hu x Hx) as [Hu1 Hu2]. destruct Hpos as (Hp1 & Hp2 & _).
    unfold Reference.r1, Reference.u1, Reference.u2 in *.
    rewrite Hmu1, Hmu2 in *.
    assert (Hq : 0 < Reference.poisson_pmf x (INR c)) by nra.
    replace (pi1 s * Reference.poisson_pmf x (INR c)
             + pi2 s * Reference.poisson_pmf x (INR c))
      with (Reference.poisson_pmf x (INR c)) by (rewrite <- (Rmult_1_l (Reference.poisson_pmf x (INR c))) at 1; rewrite <- Hsum; ring).
    field. lra. }
  assert (Hw : pi1 (Reference.step data s) = pi1 s).
  { unfold Reference.step. cbn [pi1].
    rewrite (sum_over_ext _ (fun _ => pi1 s) data Hr1), sum_over_const.
    field. pose proof (length_pos_INR data Hne). lra. }
  assert (Hw2 : pi2 (Reference.step data s) = pi2 s).
  { unfold Reference.step in *. cbn [pi1 pi2] in *. rewrite Hw. lra. }
  destruct s as [m1 m2 p1 p2]. cbn [mu1 mu2 pi1 pi2] in *.
  unfold Reference.step in *. cbn [mu1 mu2 pi1 pi2] in *.
  f_equal; lra.
Qed.

(** X12.  Under real arithmetic, for a sample that is one value [c]
    repeated: the first M-step sets
    both means to [c] and from then on nothing changes, so with a positive
    tolerance and a cap of at least 3 the run converges in its second or
    third iteration and returns both means equal to [c]. *)
Theorem constant_sample_converges (data : list nat) (c : nat) (tol : R)
    (max_iter : nat) :
  data <> [] -> (forall x, In x data -> x = c) -> 0 < tol -> (3 <= max_iter)%nat ->
  exists (s : MixtureState) (log_likelihoods : list R) (k : nat),
    returned (em_algorithm data tol max_iter) = inr (s, log_likelihoods) /\
    printed (em_algorithm data tol max_iter) = [converged_message k] /\
    (1 <= k <= 2)%nat /\ length log_likelihoods = S k /\
    mu1 s = INR c /\ mu2 s = INR c.
Proof.
  intros Hne Hconst Htol Hcap.
  set (s1 := state_at initialize_parameters data 1).
  assert (Hmeans : mu1 s1 = INR c /\ mu2 s1 = INR c).
  { destruct (step_means_in_range data initialize_parameters c c Hne
                (positive_on_initial data)) as [H1 H2].
    - intros x Hx. rewrite (Hconst x Hx). lia.
    - subst s1. rewrite state_at_S. change (state_at initialize_parameters data 0)
        with initialize_parameters. split; lra. }
  assert (Hfix : em_step data s1 = s1).
  { apply (step_constant_sample data s1 c); try assumption; try apply Hmeans.
    apply valid_state_at, Hne. }
  assert (Hstate : forall j, state_at initialize_parameters data (S j) = s1).
  { induction j as [|j IH]; [reflexivity|]. rewrite state_at_S, IH. exact Hfix. }
  assert (Hstop : stops_at initialize_parameters data tol 2).
  { split; [lia|]. unfold ll_at. cbn [Nat.sub]. rewrite !Hstate.
    rewrite Rminus_diag, Rabs_R0. exact Htol. }
  unfold em_algorithm.
  destruct (em_from_run initialize_parameters data tol max_iter)
    as (n & Hle & _ & Hge2 & Hret & Hmin & [[Hs Hp] | (-> & Hnone & _)]).
  - specialize (Hge2 ltac:(lia)).
    assert (Hn : (n <= 3)%nat).
    { destruct (Nat.le_gt_cases n 3) as [H | H]; [exact H|].
      exfalso. apply (Hmin 2%nat); [lia | exact Hstop]. }
    eexists _, _, (n - 1)%nat. split; [exact Hret|]. split; [exact Hp|].
    split; [lia|]. split; [rewrite trace_length; lia|].
    destruct n as [|n']; [lia|]. rewrite Hstate. exact Hmeans.
  - exfalso. apply (Hnone 2%nat); [lia | exact Hstop].
Qed.

Lemma constant_sample_converges_witness :
  [4%nat; 4%nat; 4%nat] <> [] /\
  (forall x, In x [4%nat; 4%nat; 4%nat] -> x = 4%nat) /\
  0 < default_tol /\ (3 <= default_max_iter)%nat /\
  exists (s : MixtureState) (log_likelihoods : list R) (k : nat),
    returned (em_algorithm [4%nat; 4%nat; 4%nat] default_tol default_max_iter)
    = inr (s, log_likelihoods) /\
    printed (em_algorithm [4%nat; 4%nat; 4%nat] default_tol default_max_iter)
    = [converged_message k] /\
    (1 <= k <= 2)%nat /\ length log_likelihoods = S k /\
    mu1 s = INR 4 /\ mu2 s = INR 4.
Proof.
  assert (Hne : [4%nat; 4%nat; 4%nat] <> []) by discriminate.
  assert (Hconst : forall x, In x [4%nat; 4%nat; 4%nat] -> x = 4%nat)
    by (intros x [<- | [<- | [<- | []]]]; reflexivity).
  assert (Htol : 0 < default_tol) by (unfold default_tol; lra).
  assert (Hcap : (3 <= default_max_iter)%nat) by (unfold default_max_iter; lia).
  split; [exact Hne|]. split; [exact Hconst|]. split; [exact Htol|].
  split; [exact Hcap|].
  exact (constant_sample_converges [4%nat; 4%nat; 4%nat] 4 default_tol
           default_max_iter Hne Hconst Htol Hcap).
Defined.

(** ** Two runs that go through corresponding states *)

Section Simulation.

Variables data data' : list nat.
Variables s0 s0' : MixtureState.
Variable f : MixtureState -> MixtureState.
Variable tol : R.

Hypothesis states_agree :
  forall k, state_at s0' data' k = f (state_at s0 data k).
Hypothesis log_likelihoods_agree :
  forall k, ll_at s0' data' k = ll_at s0 data k.

Lemma trace_agree (n : nat) : trace s0' data' n = trace s0 data n.
Proof. unfold trace. apply map_ext. exact log_likelihoods_agree. Qed.

Lemma em_loop_agree (rem : nat) : forall it out,
  em_loop data' tol rem it (state_at s0' data' it) (trace s0' data' it) out
  = map_parameters f
      (em_loop data tol rem it (state_at s0 data it) (trace s0 data it) out).
Proof.
  induction rem as [|rem IH]; intros it out.
  - cbn [em_loop]. unfold map_parameters. cbn [returned printed].
    rewrite states_agree, trace_agree. reflexivity.
  - destruct (Nat.eq_dec it 0) as [-> | Hpos].
    + rewrite (em_loop_first s0' data' tol rem out),
        (em_loop_first s0 data tol rem out). apply IH.
    + rewrite (em_loop_later s0' data' tol rem it out),
        (em_loop_later s0 data tol rem it out) by lia.
      rewrite !log_likelihoods_agree.
      destruct (Rlt_dec (Rabs (ll_at s0 data it - ll_at s0 data (it - 1))) tol).
      * unfold map_parameters. cbn [returned printed].
        rewrite states_agree, trace_agree. reflexivity.
      * apply IH.
Qed.

Lemma em_from_agree (max_iter : nat) :
  em_from s0' data' tol max_iter = map_parameters f (em_from s0 data tol max_iter).
Proof.
  unfold em_from.
  pose proof (em_loop_agree max_iter 0 []) as H.
  rewrite (states_agree 0) in H. change (trace s0' data' 0) with (@nil R) in H.
  change (trace s0 data 0) with (@nil R) in H.
  change (state_at s0 data 0) with s0 in H.
  pose proof (states_agree 0) as H0.
  change (state_at s0' data' 0) with s0' in H0.
  change (state_at s0 data 0) with s0 in H0.
  rewrite H0. exact H.
Qed.

End Simulation.

(** ** The order of the sample *)

Lemma sum_over_perm (f : nat -> R) (l l' : list nat) :
  Permutation l l' -> Reference.sum_over l f = Reference.sum_over l' f.
Proof.
  unfold Reference.sum_over.
  induction 1 as [| x l l' _ IH | x y l | l l' l'' _ IH1 _ IH2];
    cbn [fold_right]; [reflexivity | rewrite IH; reflexivity | lra | congruence].
Qed.

Lemma em_step_perm (data data' : list nat) (s : MixtureState) :
  Permutation data data' -> em_step data s = em_step data' s.
Proof.
  intros Hperm. unfold em_step, m_step, Np.mean.
  rewrite !r1_reference, !r2_quotient, !zip_with_map, !sum_map, !length_map.
  rewrite (Permutation_length Hperm).
  rewrite !(sum_over_perm _ data data' Hperm). reflexivity.
Qed.

Lemma log_likelihood_perm (data data' : list nat) (s : MixtureState) :
  Permutation data data' ->
  log_likelihood (e_step data s) = log_likelihood (e_step data' s).
Proof.
  intros Hperm. rewrite !log_likelihood_reference.
  apply sum_over_perm, Hperm.
Qed.

Lemma state_at_perm (data data' : list nat) (s0 : MixtureState) (k : nat) :
  Permutation data data' -> state_at s0 data' k = state_at s0 data k.
Proof.
  intros Hperm. induction k as [|k IH]; [reflexivity|].
  rewrite !state_at_S, IH. symmetry. apply em_step_perm, Hperm.
Qed.

Lemma map_parameters_id (o : Outcome) : map_parameters (fun s => s) o = o.
Proof. destruct o as [[e | [s l]] out]; reflexivity. Qed.

(** X13.  The fit does not depend on the order of the sample: under real
    arithmetic two samples that are permutations of each other give the same
    parameters, the same log-likelihoods and the same printed output. *)
Theorem sample_order_is_irrelevant (data data' : list nat) (tol : R)
    (max_iter : nat) :
  Permutation data data' ->
  em_algorithm data' tol max_iter = em_algorithm data tol max_iter.
Proof.
  intros Hperm. unfold em_algorithm.
  rewrite (em_from_agree data data' initialize_parameters initialize_parameters
             (fun s => s) tol).
  - apply map_parameters_id.
  - intros k. apply state_at_perm, Hperm.
  - intros k. unfold ll_at. rewrite (state_at_perm data data' _ k Hperm).
    symmetry. apply log_likelihood_perm, Hperm.
Qed.

Lemma sample_order_is_irrelevant_witness :
  Permutation [2%nat; 0%nat; 7%nat] [7%nat; 2%nat; 0%nat] /\
  em_algorithm [7%nat; 2%nat; 0%nat] default_tol default_max_iter
  = em_algorithm [2%nat; 0%nat; 7%nat] default_tol default_max_iter.
Proof.
  assert (Hperm : Permutation [2%nat; 0%nat; 7%nat] [7%nat; 2%nat; 0%nat]).
  { apply Permutation_sym.
    apply (Permutation_cons_app [2%nat; 0%nat] [] 7%nat).
    rewrite app_nil_r. apply Permutation_refl. }
  split; [exact Hperm|].
  exact (sample_order_is_irrelevant [2%nat; 0%nat; 7%nat] [7%nat; 2%nat; 0%nat]
           default_tol default_max_iter Hperm).
Defined.

(** ** Exchanging the two components *)

Lemma positive_on_from (s0 : MixtureState) (data : list nat) (k : nat) :
  data <> [] -> positive_on data s0 -> positive_on data (state_at s0 data k).
Proof.
  intros Hne H0. induction k as [|k IH]; [exact H0|].
  rewrite state_at_S, em_step_reference by (apply positive_on_nonzero, IH).
  apply positive_on_step; assumption.
Qed.

Lemma positive_on_swap (data : list nat) (s : MixtureState) :
  positive_on data s -> positive_on data (swap_components s).
Proof.
  intros (H1 & H2 & Hpow). unfold positive_on, swap_components. cbn [pi1 pi2 mu1 mu2].
  split; [exact H2|]. split; [exact H1|].
  intros x Hx. destruct (Hpow x Hx). split; assumption.
Qed.

Lemma r_swap (data : list nat) (s : MixtureState) (x : nat) :
  positive_on data s -> In x data ->
  Reference.r1 (swap_components s) x = Reference.r2 s x /\
  Reference.r2 (swap_components s) x = Reference.r1 s x.
Proof.
  intros Hpos Hx. destruct (positive_on_u data s Hpos x Hx) as [Hu1 Hu2].
  unfold Reference.r2, Reference.r1.
  change (Reference.u1 (swap_components s) x) with (Reference.u2 s x).
  change (Reference.u2 (swap_components s) x) with (Reference.u1 s x).
  split; field; lra.
Qed.

Lemma step_swap (data : list nat) (s : MixtureState) :
  data <> [] -> positive_on data s ->
  Reference.step data (swap_components s) = swap_components (Reference.step data s).
Proof.
  intros Hne Hpos.
  pose proof (sum_over_r1_r2 data s) as Hn.
  pose proof (length_pos_INR data Hne) as Hlen.
  assert (H1 : forall g : nat -> R,
            Reference.sum_over data (fun x => Reference.r1 (swap_components s) x * g x)
            = Reference.sum_over data (fun x => Reference.r2 s x * g x)).
  { intros g. apply sum_over_ext. intros x Hx.
    destruct (r_swap data s x Hpos Hx) as [-> _]. reflexivity. }
  assert (H2 : forall g : nat -> R,
            Reference.sum_over data (fun x => Reference.r2 (swap_components s) x * g x)
            = Reference.sum_over data (fun x => Reference.r1 s x * g x)).
  { intros g. apply sum_over_ext. intros x Hx.
    destruct (r_swap data s x Hpos Hx) as [_ ->]. reflexivity. }
  assert (H1' : Reference.sum_over data (Reference.r1 (swap_components s))
                = Reference.sum_over data (Reference.r2 s)).
  { apply sum_over_ext. intros x Hx. apply (r_swap data s x Hpos Hx). }
  assert (H2' : Reference.sum_over data (Reference.r2 (swap_components s))
                = Reference.sum_over data (Reference.r1 s)).
  { apply sum_over_ext. intros x Hx. apply (r_swap data s x Hpos Hx). }
  unfold Reference.step. rewrite H1, H2, H1', H2'.
  unfold swap_components. cbn [mu1 mu2 pi1 pi2]. f_equal.
  - rewrite <- Hn. field. lra.
  - rewrite <- Hn. field. lra.
Qed.

Lemma log_likelihood_swap (data : list nat) (s : MixtureState) :
  Reference.log_likelihood data (swap_components s) = Reference.log_likelihood data s.
Proof.
  unfold Reference.log_likelihood. apply sum_over_ext. intros x _.
  change (Reference.u1 (swap_components s) x) with (Reference.u2 s x).
  change (Reference.u2 (swap_components s) x) with (Reference.u1 s x).
  f_equal. ring.
Qed.

Lemma state_at_swap (s0 : MixtureState) (data : list nat) (k : nat) :
  data <> [] -> positive_on data s0 ->
  state_at (swap_components s0) data k = swap_components (state_at s0 data k).
Proof.
  intros Hne H0. induction k as [|k IH]; [reflexivity|].
  pose proof (positive_on_from s0 data k Hne H0) as Hk.
  rewrite !state_at_S, IH.
  rewrite !em_step_reference
    by (apply positive_on_nonzero; try apply positive_on_swap; exact Hk).
  apply step_swap; assumption.
Qed.

(** X14.  Under real arithmetic the loop treats the two components alike:
    entered with the two components exchanged (as [em_algorithm] is when
    [initialize_parameters] is rebound to return them in the other order),
    on a non-empty sample and with positive weights and responsibilities, it
    returns the same log-likelihoods, prints the same output and returns the
    parameters with the components exchanged. *)
Theorem exchanged_components_give_exchanged_fit (s0 : MixtureState)
    (data : list nat) (tol : R) (max_iter : nat) :
  data <> [] -> positive_on data s0 ->
  em_from (swap_components s0) data tol max_iter
  = map_parameters swap_components (em_from s0 data tol max_iter).
Proof.
  intros Hne H0. apply em_from_agree.
  - intros k. apply state_at_swap; assumption.
  - intros k. unfold ll_at. rewrite state_at_swap by assumption.
    rewrite !log_likelihood_reference. apply log_likelihood_swap.
Qed.

Lemma exchanged_components_give_exchanged_fit_witness :
  [2%nat; 0%nat; 7%nat] <> [] /\
  positive_on [2%nat; 0%nat; 7%nat] initialize_parameters /\
  em_from (swap_components initialize_parameters) [2%nat; 0%nat; 7%nat]
    default_tol default_max_iter
  = map_parameters swap_components
      (em_from initialize_parameters [2%nat; 0%nat; 7%nat]
         default_tol default_max_iter).
Proof.
  assert (Hne : [2%nat; 0%nat; 7%nat] <> []) by discriminate.
  split; [exact Hne|]. split; [apply positive_on_initial|].
  exact (exchanged_components_give_exchanged_fit initialize_parameters
           [2%nat; 0%nat; 7%nat] default_tol default_max_iter Hne
           (positive_on_initial _)).
Defined.

(** ** How many iterations run *)

(** X15.  Whatever the tolerance, the first iteration never ends the run:
    the number of log-likelihoods returned is at most the cap and at least
    the smaller of the cap and 2. *)
Theorem number_of_iterations_bounds (data : list nat) (tol : R) (max_iter : nat) :
  exists (s : MixtureState) (log_likelihoods : list R),
    returned (em_algorithm data tol max_iter) = inr (s, log_likelihoods) /\
    (Nat.min max_iter 2 <= length log_likelihoods <= max_iter)%nat.
Proof.
  unfold em_algorithm.
  destruct (em_from_run initialize_parameters data tol max_iter)
    as (n & Hle & Hge1 & Hge2 & Hret & _).
  eexists _, _. split; [exact Hret|]. rewrite trace_length.
  destruct max_iter as [|[|m]]; cbn [Nat.min]; lia.
Qed.

(** ** Entering the loop again with the parameters of a converged run *)

Lemma state_at_add (s0 : MixtureState) (data : list nat) (a b : nat) :
  state_at (state_at s0 data a) data b = state_at s0 data (a + b).
Proof.
  unfold state_at. rewrite (Nat.add_comm a b). symmetry. apply Nat.iter_add.
Qed.

Lemma ll_at_add (s0 : MixtureState) (data : list nat) (a b : nat) :
  ll_at (state_at s0 data a) data b = ll_at s0 data (a + b).
Proof. unfold ll_at. rewrite state_at_add. reflexivity. Qed.

Lemma trace_from (s0 : MixtureState) (data : list nat) (a n : nat) :
  trace (state_at s0 data a) data n = map (ll_at s0 data) (seq a n).
Proof.
  induction n as [|n IH]; [reflexivity|].
  rewrite trace_S, IH, seq_S, map_app, ll_at_add. reflexivity.
Qed.

(** What a run that printed the convergence line for iteration [k] returned. *)
Lemma converged_run (data : list nat) (tol : R) (max_iter k : nat)
    (s : MixtureState) (lls : list R) :
  em_algorithm data tol max_iter = mkOutcome (inr (s, lls)) [converged_message k] ->
  s = state_at initialize_parameters data (S k) /\
  lls = trace initialize_parameters data (S k) /\
  stops_at initialize_parameters data tol k.
Proof.
  unfold em_algorithm. intros Hrun.
  destruct (em_from_run initialize_parameters data tol max_iter)
    as (n & _ & _ & _ & Hret & _ & Hend).
  rewrite Hrun in Hret, Hend. cbn [returned printed] in Hret, Hend.
  destruct Hend as [[Hs Hp] | (_ & _ & Hp)]; [|discriminate].
  pose proof (f_equal (hd EmptyString) Hp) as Hmsg.
  change (converged_message k = converged_message (n - 1)) in Hmsg.
  apply converged_message_inj in Hmsg. subst k.
  assert (0 < n - 1)%nat by apply Hs.
  replace (S (n - 1)) with n by lia.
  injection Hret as -> ->. repeat split; apply Hs.
Qed.

(** C2, as the code has it.  Let [em_algorithm] have converged, printing the
    line for iteration [k], and let its loop be entered again with the
    parameters [s] it returned and the same tolerance.  The second run goes
    on where the first stopped: after [n'] iterations it returns the state
    and the log-likelihoods of iterations [k + 1 .. k + n'] of the first
    run's sequence.  Its first iteration is never tested, so it completes at
    least two iterations when its cap allows, and a list of length 1 never
    comes with convergence printed.  With a cap of at least 2 it stops in its
    second iteration, with exactly 2 entries and convergence printed,
    exactly when the next two log-likelihoods of the sequence differ by less
    than the tolerance; they do when [s] is an exact fixed point of the EM
    pass and the tolerance is positive. *)
Theorem refit_from_converged_state (data : list nat) (tol : R)
    (max_iter max_iter' k : nat) (s : MixtureState) (lls : list R) :
  em_algorithm data tol max_iter = mkOutcome (inr (s, lls)) [converged_message k] ->
  exists n' : nat,
    (Nat.min max_iter' 2 <= n' <= max_iter')%nat /\
    returned (em_from s data tol max_iter')
      = inr (state_at initialize_parameters data (S k + n'),
             map (ll_at initialize_parameters data) (seq (S k) n')) /\
    length (map (ll_at initialize_parameters data) (seq (S k) n')) = n' /\
    (printed (em_from s data tol max_iter') <> [] -> (2 <= n')%nat) /\
    ((2 <= max_iter')%nat ->
       (n' = 2%nat /\
        printed (em_from s data tol max_iter') = [converged_message 1])
       <->
       Rabs (ll_at initialize_parameters data (S k + 1)
             - ll_at initialize_parameters data (S k)) < tol) /\
    (em_step data s = s -> 0 < tol -> (2 <= max_iter')%nat ->
       n' = 2%nat /\
       printed (em_from s data tol max_iter') = [converged_message 1]).
Proof.
  intros Hrun. destruct (converged_run _ _ _ _ _ _ Hrun) as (Hs & _ & _).
  destruct (em_from_run s data tol max_iter')
    as (n' & Hle & Hge1 & Hge2 & Hret & Hmin & Hend).
  assert (Hstop1 : stops_at s data tol 1
                   <-> Rabs (ll_at initialize_parameters data (S k + 1)
                             - ll_at initialize_parameters data (S k)) < tol).
  { unfold stops_at. cbn [Nat.sub]. rewrite Hs, !ll_at_add, Nat.add_0_r.
    split; [intros [_ H]; exact H | intros H; split; [lia | exact H]]. }
  assert (Hsecond : (2 <= max_iter')%nat ->
            (n' = 2%nat /\
             printed (em_from s data tol max_iter') = [converged_message 1])
            <-> stops_at s data tol 1).
  { intros Hcap. specialize (Hge2 Hcap). split.
    - intros [-> Hp]. destruct Hend as [[Hstop _] | (_ & _ & Hnil)];
        [exact Hstop | rewrite Hnil in Hp; discriminate].
    - intros Hstop.
      assert (n' = 2%nat) as ->.
      { destruct (Nat.le_gt_cases n' 2) as [H | H]; [lia|].
        exfalso. apply (Hmin 1%nat); [lia | exact Hstop]. }
      split; [reflexivity|].
      destruct Hend as [[_ Hp] | (_ & Hnone & _)]; [exact Hp|].
      exfalso. apply (Hnone 1%nat); [lia | exact Hstop]. }
  exists n'.
  split; [destruct max_iter' as [|[|m]]; cbn [Nat.min]; lia|].
  split; [rewrite Hret, Hs, state_at_add, trace_from; reflexivity|].
  split; [rewrite length_map, length_seq; reflexivity|].
  split.
  { intros Hp. destruct Hend as [[[Hpos _] _] | (_ & _ & Hnil)];
      [lia | contradiction]. }
  split.
  { intros Hcap. rewrite (Hsecond Hcap). exact Hstop1. }
  intros Hfix Htol Hcap. apply (Hsecond Hcap). split; [lia|].
  unfold ll_at. cbn [Nat.sub]. rewrite !state_at_fixed by exact Hfix.
  rewrite Rminus_diag, Rabs_R0. exact Htol.
Qed.

Lemma refit_from_converged_state_witness :
  em_algorithm [0%nat] default_tol default_max_iter
  = mkOutcome (inr (state_at initialize_parameters [0%nat] 3,
                    trace initialize_parameters [0%nat] 3))
              [converged_message 2] /\
  exists n' : nat,
    (Nat.min default_max_iter 2 <= n' <= default_max_iter)%nat /\
    returned (em_from (state_at initialize_parameters [0%nat] 3) [0%nat]
                default_tol default_max_iter)
      = inr (state_at initialize_parameters [0%nat] (3 + n'),
             map (ll_at initialize_parameters [0%nat]) (seq 3 n')) /\
    length (map (ll_at initialize_parameters [0%nat]) (seq 3 n')) = n' /\
    (printed (em_from (state_at initialize_parameters [0%nat] 3) [0%nat]
                default_tol default_max_iter) <> [] -> (2 <= n')%nat) /\
    ((2 <= default_max_iter)%nat ->
       (n' = 2%nat /\
        printed (em_from (state_at initialize_parameters [0%nat] 3) [0%nat]
                   default_tol default_max_iter) = [converged_message 1])
       <->
       Rabs (ll_at initialize_parameters [0%nat] (3 + 1)
             - ll_at initialize_parameters [0%nat] 3) < default_tol) /\
    (em_step [0%nat] (state_at initialize_parameters [0%nat] 3)
     = state_at initialize_parameters [0%nat] 3 ->
     0 < default_tol -> (2 <= default_max_iter)%nat ->
       n' = 2%nat /\
       printed (em_from (state_at initialize_parameters [0%nat] 3) [0%nat]
                  default_tol default_max_iter) = [converged_message 1]).
Proof.
  split; [exact em_algorithm_single_zero_default|].
  exact (refit_from_converged_state [0%nat] default_tol default_max_iter
           default_max_iter 2 _ _ em_algorithm_single_zero_default).
Defined.
